(** * Hydrometric use case: station selection and time-series assembly

    A shallow embedding of the two data-processing cells of the notebook
    [docs/use-case_oafeat-interactive_en.ipynb] (and of its French twin,
    which differs only in comments and message texts):

    - the cell "List of stations located inside the buffer zone", which
      keeps the stations whose reprojected point intersects a buffer
      around the chosen coordinates, and
    - the cell "Retrieval of hydrometric data for each station", which
      builds one data frame per station, drops the rows without water
      level at the end of the frame and sets aside the stations without
      data.

    Python exceptions are values of [exn]; a cell is a function into
    [result].  Calls into OGR/OSR and the web API are taken as an
    interface ([Runtime]) or as arguments. *)

From Stdlib Require Import QArith Qround.
From Equations Require Import Equations.
From stdpp Require Import gmap strings list fin_maps pretty.
Close Scope Q_scope.

(** ** Python exceptions and results *)

Inductive exn : Type :=
| ValueError (msg : string)
| NameError (name : string)
| TypeError
| AttributeError
| IndexError
| LibraryError.

Inductive result (A : Type) : Type :=
| Ok (a : A)
| Raise (e : exn).
Arguments Ok {A} a.
Arguments Raise {A} e.

#[global] Instance result_ret : MRet result := fun A a => Ok a.
#[global] Instance result_bind : MBind result := fun A B f c =>
  match c with
  | Ok a => f a
  | Raise e => Raise e
  end.

(** [for x in l: s = body(s, x)], stopping at the first exception. *)
Fixpoint for_each {S A : Type} (body : S -> A -> result S) (l : list A) (s : S)
  : result S :=
  match l with
  | [] => Ok s
  | x :: l' => s' ← body s x; for_each body l' s'
  end.

(** ** The "Parameters" cell *)

Record params : Type := Params {
  lat : Q;
  long : Q;
  buffer : Z;
  start_date : string;
  end_date : string;
  projection : Z
}.

(** The values of the notebook as published: Chilliwack, 100 km,
    summer 2018, NAD83 / Statistics Canada Lambert. *)
Definition chilliwack : params :=
  {| lat := (49162676 # 1000000)%Q;
     long := (-121958943 # 1000000)%Q;
     buffer := 100;
     start_date := "2018-06-01";
     end_date := "2018-08-31";
     projection := 3347 |}.

(** Names of the global namespace that an f-string can interpolate, with
    their [str()].  [lat] and [long] are bound as well; they are floats,
    no message interpolates them and their rendering is left out.  No
    cell of the notebook binds any other scalar name. *)
Definition globals (p : params) : gmap string string :=
  {[ "buffer" := pretty (buffer p);
     "start_date" := start_date p;
     "end_date" := end_date p;
     "projection" := pretty (projection p) ]}.

(** Evaluation of a replacement field [{name}] of an f-string. *)
Definition fstring_field (p : params) (name : string) : result string :=
  match globals p !! name with
  | Some s => Ok s
  | None => Raise (NameError name)
  end.

(** The notebook exists in two languages. *)
Inductive lang : Type := EN | FR.

Definition msg_no_stations (l : lang) : string :=
  match l with
  | EN => "No hydrometric stations were found. Please verify the coordinates."
  | FR => "Aucune station hydrométrique n'a été trouvée. "
          +:+ "Veuillez revérifier les coordonnées."
  end.

Definition msg_none_in_buffer (l : lang) (p : params) : result string :=
  match l with
  | EN =>
      b ← fstring_field p "buffer";
      Ok ("There are no hydrometric stations within " +:+ b +:+ " km"
          +:+ " of the chosen coordinates. Please verify the coordinates.")
  | FR =>
      b ← fstring_field p "buffer";
      Ok ("Aucune station hydrométrique n'est située dans un rayon de " +:+ b
          +:+ " km des coordonnées choisies. Veuillez vérifier les coordonnées.")
  end.

Definition msg_no_water_level (l : lang) (p : params) : result string :=
  match l with
  | EN =>
      n ← fstring_field p "num_months";
      Ok ("No water level data is available for this " +:+ n
          +:+ " months period for the selected hydrometric stations.")
  | FR =>
      n ← fstring_field p "num_months";
      Ok ("Aucune données de niveau d'eau n'est disponible dans cette période"
          +:+ " de " +:+ n +:+ " mois pour les stations sélectionnées.")
  end.

(** ** Data frames *)

(** A calendar day, as carried by the [DATE] property. *)
Record date : Type := Date { year : Z; month : Z; day : Z }.

(** A water level: [None] is NaN (a JSON [null] after [fillna]). *)
Definition level : Type := option Q.

Definition isnan (x : level) : bool :=
  match x with
  | None => true
  | Some _ => false
  end.

(** A data frame is the list of its rows, each with its index label. *)
Abbreviation Frame I R := (list (I * R)).

(** The six columns chosen in [pd.DataFrame(..., columns=[...])]. *)
Record row : Type := Row {
  STATION_NUMBER : string;
  STATION_NAME : string;
  DATE : date;
  LEVEL : level;
  LATITUDE : Q;
  LONGITUDE : Q
}.

(** The columns left once [DATE] has become the index
    ([set_index(["DATE"], drop=True)]). *)
Record obs : Type := Obs {
  obs_STATION_NUMBER : string;
  obs_STATION_NAME : string;
  obs_LEVEL : level;
  obs_LATITUDE : Q;
  obs_LONGITUDE : Q
}.

(** [pd.DataFrame(rows)]: a fresh [RangeIndex] 0, 1, ... *)
Definition pd_DataFrame {R : Type} (rows : list R) : Frame nat R :=
  zip (seq 0 (length rows)) rows.

(** [df.tail(1).index]: the label of the last row, if any. *)
Definition tail1_index {I R : Type} (df : Frame I R) : list I :=
  match last df with
  | None => []
  | Some (i, _) => [i]
  end.

(** [df.drop(labels)]: every row carrying one of the labels goes. *)
Definition drop {I R : Type} `{EqDecision I} (labels : list I) (df : Frame I R)
  : Frame I R :=
  filter (fun ir => ir.1 ∉ labels) df.

(** [df["LEVEL"].iloc[-1]] *)
Definition iloc_last_LEVEL {I : Type} (df : Frame I row) : result level :=
  match last df with
  | None => Raise IndexError
  | Some (_, r) => Ok (LEVEL r)
  end.

(** [df["LEVEL"].isnull().all()] *)
Definition LEVEL_isnull_all {I : Type} (df : Frame I row) : bool :=
  forallb (fun ir => isnan (LEVEL ir.2)) df.

Definition inspect {A : Type} (x : A) : {y : A | x = y} := exist _ x eq_refl.

(** The trimming loop:
<<
    while np.isnan(df["LEVEL"].iloc[-1]):
        df = df.drop(df.tail(1).index)
>>
    [iloc[-1]] raises on an empty frame.  Each round removes at least the
    last row, so the length decreases. *)
Equations? trim_loop (df : Frame nat row) : result (Frame nat row)
  by wf (length df) lt :=
  trim_loop df with inspect (iloc_last_LEVEL df) := {
    | exist _ (Raise e) _ => Raise e
    | exist _ (Ok v) Hv with isnan v := {
        | true => trim_loop (drop (tail1_index df) df)
        | false => Ok df } }.
Proof.
  unfold iloc_last_LEVEL, tail1_index in *.
  destruct (last df) as [[i r]|] eqn:Hl; [|discriminate].
  apply last_Some in Hl as [l' ->].
  unfold drop. rewrite filter_app.
  rewrite filter_cons_False by (simpl; set_solver).
  rewrite filter_nil, !length_app. simpl.
  pose proof (length_filter (fun ir : nat * row => ir.1 ∉ [i]) l'). lia.
Qed.

(** ** The spec's reading of the trimming step *)

(** "Repeatedly drop the last record while its value is missing, until
    the last remaining record has a present value or the sequence becomes
    empty." *)
Inductive trims_to {A : Type} (missing : A -> bool) : list A -> list A -> Prop :=
| trims_empty : trims_to missing [] []
| trims_present l x :
    missing x = false -> trims_to missing (l ++ [x]) (l ++ [x])
| trims_drop l x t :
    missing x = true -> trims_to missing l t -> trims_to missing (l ++ [x]) t.

(** The same, as a function. *)
Fixpoint trim_trailing {A : Type} (missing : A -> bool) (l : list A) : list A :=
  match l with
  | [] => []
  | x :: l' =>
      match trim_trailing missing l' with
      | [] => if missing x then [] else [x]
      | t => x :: t
      end
  end.

(** A row whose water level is missing. *)
Definition row_missing {I : Type} (ir : I * row) : bool := isnan (LEVEL ir.2).

(** A (date, value) pair whose value is missing. *)
Definition value_missing (dv : date * level) : bool := isnan dv.2.

(** ** The cell "Retrieval of hydrometric data for each station" *)

(** One GeoJSON feature of the collection [hydrometric-daily-mean]:
    [el["geometry"]["coordinates"]] (longitude first) and the properties
    the frame keeps. *)
Record hydro_feature : Type := HydroFeature {
  coordinates : Q * Q;
  prop_STATION_NUMBER : string;
  prop_STATION_NAME : string;
  prop_DATE : date;
  prop_LEVEL : level
}.

Definition historical_data_format (el : hydro_feature) : row :=
  {| STATION_NUMBER := prop_STATION_NUMBER el;
     STATION_NAME := prop_STATION_NAME el;
     DATE := prop_DATE el;
     LEVEL := prop_LEVEL el;
     LATITUDE := (coordinates el).2;
     LONGITUDE := (coordinates el).1 |}.

(** [df["DATE"] = pd.to_datetime(df["DATE"])], [df.set_index(["DATE"],
    drop=True)] and [df.index = df.index.date]: the day becomes the label
    and leaves the columns.  The days are taken to be days
    [pd.to_datetime] reads; its failure on a day it cannot represent is
    left out. *)
Definition set_index_DATE {I : Type} (df : Frame I row) : Frame date obs :=
  map (fun ir =>
         (DATE ir.2,
          {| obs_STATION_NUMBER := STATION_NUMBER ir.2;
             obs_STATION_NAME := STATION_NAME ir.2;
             obs_LEVEL := LEVEL ir.2;
             obs_LATITUDE := LATITUDE ir.2;
             obs_LONGITUDE := LONGITUDE ir.2 |})) df.

(** The two containers the cell fills. *)
Record hydro_state : Type := HydroState {
  hydrometric_data : gmap string (Frame date obs);
  stations_without_data : list string
}.

Definition add_frame (station : string) (df : Frame date obs) (st : hydro_state)
  : hydro_state :=
  {| hydrometric_data := <[station := df]> (hydrometric_data st);
     stations_without_data := stations_without_data st |}.

Definition add_without_data (station : string) (st : hydro_state) : hydro_state :=
  {| hydrometric_data := hydrometric_data st;
     stations_without_data := stations_without_data st ++ [station] |}.

(** [l.remove(x)]: the first occurrence goes; [ValueError] if there is
    none. *)
Fixpoint list_remove (x : string) (l : list string) : result (list string) :=
  match l with
  | [] => Raise (ValueError "list.remove(x): x not in list")
  | y :: l' =>
      if decide (x = y) then Ok l'
      else l'' ← list_remove x l'; Ok (y :: l'')
  end.

Section Assembler.

(** [collection_items station] stands for
    [oafeat.collection_items("hydrometric-daily-mean", bbox=bbox,
    datetime=..., STATION_NUMBER=station)["features"]]. *)
Variable collection_items : string -> list hydro_feature.

(** The frame built from the features of one station. *)
Definition historical_data_df (station : string) : Frame nat row :=
  pd_DataFrame (map historical_data_format (collection_items station)).

(** Body of [for station in stations:]. *)
Definition station_body (st : hydro_state) (station : string)
  : result hydro_state :=
  match collection_items station with
  | _ :: _ =>
      let df := historical_data_df station in
      if negb (LEVEL_isnull_all df) then
        df' ← trim_loop df;
        Ok (add_frame station (set_index_DATE df') st)
      else Ok (add_without_data station st)
  | [] => Ok (add_without_data station st)
  end.

(** The two loops of the cell: the frames are built, then the stations
    without data are removed from [stations]. *)
Definition retrieve_loops (stations : list string)
  : result (list string * hydro_state) :=
  st ← for_each station_body stations
         {| hydrometric_data := ∅; stations_without_data := [] |};
  stations' ← for_each (fun l station => list_remove station l)
                (stations_without_data st) stations;
  Ok (stations', st).

(** The whole cell, with its closing check
    [if not stations: raise ValueError(f"... {num_months} ...")]. *)
Definition retrieve (l : lang) (p : params) (stations : list string)
  : result (list string * hydro_state) :=
  out ← retrieve_loops stations;
  match out.1 with
  | [] => msg ← msg_no_water_level l p; Raise (ValueError msg)
  | _ :: _ => Ok out
  end.

(** A station has usable data when the API returned features for it and
    not every level is missing. *)
Definition usable (station : string) : bool :=
  match collection_items station with
  | [] => false
  | _ :: _ => negb (LEVEL_isnull_all (historical_data_df station))
  end.

(** The frame the cell stores for a usable station, and the pure
    reading of one round of the loop. *)
Definition stored_frame (station : string) : Frame date obs :=
  set_index_DATE (trim_trailing row_missing (historical_data_df station)).

Definition station_result (st : hydro_state) (station : string) : hydro_state :=
  if usable station then add_frame station (stored_frame station) st
  else add_without_data station st.

(** The state the first loop leaves, read as a fold of
    [station_result]. *)
Definition loops_state (stations : list string) : hydro_state :=
  foldl station_result
    {| hydrometric_data := ∅; stations_without_data := [] |} stations.

(** The records of a station as (date, value) pairs, in arrival
    order. *)
Definition records (station : string) : list (date * level) :=
  map (fun el => (prop_DATE el, prop_LEVEL el)) (collection_items station).

End Assembler.

(** The (date, value) pairs of a stored frame. *)
Definition series (df : Frame date obs) : list (date * level) :=
  map (fun ir => (ir.1, obs_LEVEL ir.2)) df.

(** ** The cells "Retrieval of hydrometric stations data" and "List of
    stations located inside the buffer zone" *)

(** What the cells take from OSR/OGR and from Python's [int]. *)
Class Runtime : Type := {
  Geometry : Type;
  SRS : Type;
  Transformation : Type;
  (** [osr.SpatialReference(text).GetAuthorityCode(None)]; the outer
      [None] stands for an exception raised inside the bindings. *)
  authority_code : string -> option (option string);
  (** the reference system [ImportFromEPSG(code)] leaves in its object *)
  ImportFromEPSG : Z -> SRS;
  CoordinateTransformation : SRS -> SRS -> Transformation;
  (** [geom.Transform(transform)], as the geometry it leaves *)
  Transform : Transformation -> Geometry -> Geometry;
  (** [ogr.Geometry(ogr.wkbPoint)] after [AddPoint(x, y)] *)
  Point : Q -> Q -> Geometry;
  Buffer : Geometry -> Z -> Geometry;
  Intersects : Geometry -> Geometry -> bool;
  (** the integer a string denotes for [int()], if any *)
  int_literal : string -> option Z
}.

Section Selector.

Context `{RT : Runtime}.

(** A feature of the stations layer. *)
Record station_feature : Type := StationFeature {
  geometry : Geometry;
  feat_STATION_NUMBER : string
}.

(** The answer of the API for [hydrometric-stations]: the value under
    the key ["features"] if the key is there, and the text of the
    spatial reference OGR gives the layer read from it, if any. *)
Record station_collection : Type := StationCollection {
  sc_features : option (list station_feature);
  sc_spatial_ref : option string
}.

(** [if "features" in station_data.keys() and station_data["features"]] *)
Definition verify_retrieved (l : lang) (sd : station_collection)
  : result (list station_feature) :=
  match sc_features sd with
  | Some (f :: fs) => Ok (f :: fs)
  | _ => Raise (ValueError (msg_no_stations l))
  end.

(** [str(x)] of what [layer.GetSpatialRef()] returned *)
Definition str_spatial_ref (x : option string) : string :=
  match x with
  | None => "None"
  | Some wkt => wkt
  end.

(** [int(x)] *)
Definition py_int (x : option string) : result Z :=
  match x with
  | None => Raise TypeError
  | Some s =>
      match int_literal s with
      | Some n => Ok n
      | None =>
          Raise (ValueError
                   ("invalid literal for int() with base 10: '" +:+ s +:+ "'"))
      end
  end.

(** Identification of the input spatial reference system:
<<
  SRS_input = layer.GetSpatialRef()
  SR = osr.SpatialReference(str(SRS_input))
  epsg = SR.GetAuthorityCode(None)
  SRS_input.ImportFromEPSG(int(epsg))
>>
    In the last line the attribute is looked up on [SRS_input] before
    the argument is evaluated. *)
Definition input_SRS (sd : station_collection) : result SRS :=
  let SRS_input := sc_spatial_ref sd in
  epsg ← match authority_code (str_spatial_ref SRS_input) with
          | Some c => Ok c
          | None => Raise LibraryError
          end;
  match SRS_input with
  | None => Raise AttributeError
  | Some _ => n ← py_int epsg; Ok (ImportFromEPSG n)
  end.

(** The selection loop:
<<
  for feature in layer:
      geom = feature.GetGeometryRef().Clone()
      geom.Transform(transform)
      if geom.Intersects(point_buffer):
          stations.append(feature.STATION_NUMBER)
>> *)
Definition selection_loop (transform : Transformation) (point_buffer : Geometry)
    (layer : list station_feature) : list string :=
  foldl (fun stations feature =>
           let geom := Transform transform (geometry feature) in
           if Intersects geom point_buffer
           then stations ++ [feat_STATION_NUMBER feature]
           else stations) [] layer.

(** The buffer around the chosen coordinates, in the projection. *)
Definition point_buffer_of (p : params) (transform : Transformation) : Geometry :=
  let point := Transform transform (Point (long p) (lat p)) in
  Buffer point (buffer p * 1000).

(** What the selection loop keeps of a collection, given the code [n]
    of its reference system. *)
Definition selected (p : params) (n : Z) (sd : station_collection)
  : list string :=
  let transform :=
    CoordinateTransformation (ImportFromEPSG n) (ImportFromEPSG (projection p)) in
  selection_loop transform (point_buffer_of p transform)
    (default [] (sc_features sd)).

(** Both cells in sequence. *)
Definition select_stations (l : lang) (p : params) (sd : station_collection)
  : result (list string) :=
  layer ← verify_retrieved l sd;
  SRS_input ← input_SRS sd;
  let SRS_projected := ImportFromEPSG (projection p) in
  let transform := CoordinateTransformation SRS_input SRS_projected in
  let stations := selection_loop transform (point_buffer_of p transform) layer in
  match stations with
  | [] => msg ← msg_none_in_buffer l p; Raise (ValueError msg)
  | _ :: _ => Ok stations
  end.

End Selector.

(** ** Scenarios *)

Definition d1 : date := Date 2018 6 1.
Definition d2 : date := Date 2018 6 2.
Definition d3 : date := Date 2018 6 3.

Definition reading (station : string) (d : date) (v : level) : hydro_feature :=
  {| coordinates := ((-1219 # 10)%Q, (491 # 10)%Q);
     prop_STATION_NUMBER := station;
     prop_STATION_NAME := "Station " +:+ station;
     prop_DATE := d;
     prop_LEVEL := v |}.

(** Station X has one level followed by two gaps, station Y has gaps
    only, station W has a gap between two levels, any other station has
    no record in the period. *)
Definition scenario_items (station : string) : list hydro_feature :=
  if decide (station = "X") then
    [reading "X" d1 (Some (12 # 10)%Q); reading "X" d2 None; reading "X" d3 None]
  else if decide (station = "Y") then
    [reading "Y" d1 None; reading "Y" d2 None]
  else if decide (station = "W") then
    [reading "W" d1 (Some (3 # 1)%Q); reading "W" d2 None;
     reading "W" d3 (Some (4 # 1)%Q)]
  else [].

(** ** A runtime to run the selection on: the flat plane *)

(** Points and discs with integer coordinates in metres; reference
    systems are EPSG codes, every transformation is the identity. *)
Inductive planar_geometry : Type :=
| Pt (x y : Z)
| Disc (x y r : Z).

Definition planar_centre (g : planar_geometry) : Z * Z :=
  match g with
  | Pt x y => (x, y)
  | Disc x y _ => (x, y)
  end.

Definition planar_radius (g : planar_geometry) : Z :=
  match g with
  | Pt _ _ => 0
  | Disc _ _ r => r
  end.

Definition planar_intersects (g h : planar_geometry) : bool :=
  let dx := ((planar_centre g).1 - (planar_centre h).1)%Z in
  let dy := ((planar_centre g).2 - (planar_centre h).2)%Z in
  let r := (planar_radius g + planar_radius h)%Z in
  (dx * dx + dy * dy <=? r * r)%Z.

Definition planar : Runtime :=
  {| Geometry := planar_geometry;
     SRS := Z;
     Transformation := Z * Z;
     authority_code := fun text =>
       if decide (text = "GEOGCS[WGS 84]") then Some (Some "4326")
       else Some None;
     ImportFromEPSG := fun code => code;
     CoordinateTransformation := fun src dst => (src, dst);
     Transform := fun _ g => g;
     Point := fun x y => Pt (Qfloor x) (Qfloor y);
     Buffer := fun g r =>
       Disc (planar_centre g).1 (planar_centre g).2 (planar_radius g + r);
     Intersects := planar_intersects;
     int_literal := fun s => if decide (s = "4326") then Some 4326%Z else None |}.

(** A 100 km buffer around the origin of the plane. *)
Definition origin_100km : params :=
  {| lat := 0%Q; long := 0%Q; buffer := 100;
     start_date := "2018-06-01"; end_date := "2018-08-31"; projection := 3347 |}.

(** Station A at 10 km and station B at 150 km from the origin. *)
Definition station_A : @station_feature planar :=
  @StationFeature planar (Pt 10000 0) "A".
Definition station_B : @station_feature planar :=
  @StationFeature planar (Pt 0 150000) "B".

Definition stations_A_B : @station_collection planar :=
  {| sc_features := Some [station_A; station_B];
     sc_spatial_ref := Some "GEOGCS[WGS 84]" |}.

Definition no_stations : @station_collection planar :=
  {| sc_features := Some []; sc_spatial_ref := Some "GEOGCS[WGS 84]" |}.

Definition stations_without_SRS : @station_collection planar :=
  {| sc_features := Some [station_A; station_B]; sc_spatial_ref := None |}.

Definition stations_local_SRS : @station_collection planar :=
  {| sc_features := Some [station_A; station_B];
     sc_spatial_ref := Some "LOCAL_CS[unnamed]" |}.

(** ** The display cells *)

(** The display cells read the dictionary; besides the exceptions above
    they can end in a [KeyError]. *)
Inductive view_exn : Type :=
| KeyError (key : string)
| Uncaught (e : exn).

Inductive view (A : Type) : Type :=
| Shown (a : A)
| Fails (e : view_exn).
Arguments Shown {A} a.
Arguments Fails {A} e.

#[global] Instance view_ret : MRet view := fun A a => Shown a.
#[global] Instance view_bind : MBind view := fun A B f c =>
  match c with
  | Shown a => f a
  | Fails e => Fails e
  end.

(** A list comprehension or a loop that collects, stopping at the first
    exception. *)
Fixpoint view_map {A B : Type} (f : A -> view B) (l : list A) : view (list B) :=
  match l with
  | [] => Shown []
  | x :: l' => y ← f x; ys ← view_map f l'; Shown (y :: ys)
  end.

(** [hydrometric_data[station]] *)
Definition getitem (hd : gmap string (Frame date obs)) (station : string)
  : view (Frame date obs) :=
  match hd !! station with
  | Some df => Shown df
  | None => Fails (KeyError station)
  end.

(** [df[column][0]]: on a column labelled by dates an integer key is a
    position (in the pandas the notebook was written for). *)
Definition column_first {C : Type} (column : obs -> C) (df : Frame date obs)
  : view C :=
  match df with
  | [] => Fails (Uncaught IndexError)
  | (_, o) :: _ => Shown (column o)
  end.

(** [df.iloc[-1]]: the last row, with its label as [name]. *)
Definition iloc_last (df : Frame date obs) : view (date * obs) :=
  match last df with
  | None => Fails (Uncaught IndexError)
  | Some r => Shown r
  end.

Definition station_heading (l : lang) (name station : string) : string :=
  match l with
  | EN => "Water levels at station " +:+ name +:+ " (" +:+ station +:+ ")"
  | FR => "Niveaux d'eau de la station " +:+ name +:+ " (" +:+ station +:+ ")"
  end.

(** What a figure shows: its title, the name of its trace and the
    plotted column [LEVEL] with its index. *)
Record figure : Type := Figure {
  fig_title : string;
  fig_trace_name : string;
  fig_points : list (date * level)
}.

(** [choose_station(station)]: the frame is looked up for the column to
    plot, then again for the title. *)
Definition choose_station (l : lang) (hd : gmap string (Frame date obs))
    (station : string) : view figure :=
  df ← getitem hd station;
  df_title ← getitem hd station;
  name ← column_first obs_STATION_NAME df_title;
  Shown {| fig_title := station_heading l name station;
           fig_trace_name := match l with
                             | EN => "Daily mean"
                             | FR => "Moyenne journalière"
                             end;
           fig_points := series df |}.

(** What the table cell displays: the HTML title and the frame reduced
    to the renamed column [LEVEL], its index renamed. *)
Record table : Type := Table {
  table_title : string;
  table_index_name : string;
  table_column : string;
  table_rows : list (date * level)
}.

(** [choose_station_table(station)] *)
Definition choose_station_table (l : lang) (hd : gmap string (Frame date obs))
    (station : string) : view table :=
  df_title ← getitem hd station;
  name ← column_first obs_STATION_NAME df_title;
  df ← getitem hd station;
  Shown {| table_title := "<h4>" +:+ station_heading l name station +:+ "</h4>";
           table_index_name := "Date";
           table_column := match l with
                           | EN => "Water level daily mean (m)"
                           | FR => "Moyenne journalière du niveau d'eau (m)"
                           end;
           table_rows := series df |}.

(** [min(l)] and [max(l)]: the first smallest, the first largest. *)
Definition py_min (l : list Q) : view Q :=
  match l with
  | [] => Fails (Uncaught (ValueError "min() arg is an empty sequence"))
  | x :: l' => Shown (foldl (fun m y => if Qle_bool m y then m else y) x l')
  end.

Definition py_max (l : list Q) : view Q :=
  match l with
  | [] => Fails (Uncaught (ValueError "max() arg is an empty sequence"))
  | x :: l' => Shown (foldl (fun m y => if Qle_bool y m then m else y) x l')
  end.

(** A marker of the map: where it stands and the row its hover text is
    built from (the text itself, with its rounding, is left out). *)
Record marker : Type := Marker {
  marker_location : Q * Q;
  marker_data : date * obs
}.

Record station_map : Type := StationMap {
  map_center : Q * Q;
  map_zoom : Z;
  map_heading : string;
  map_markers : list marker
}.

Definition msg_map_heading (l : lang) (p : params) : result string :=
  match l with
  | EN =>
      e ← fstring_field p "end_date";
      Ok ("<h4>Most recent daily mean water level for the "
          +:+ "time period ending the " +:+ e +:+ "</h4>")
  | FR =>
      e ← fstring_field p "end_date";
      Ok ("<h4>Moyenne journalière du niveau d'eau la plus récente pour "
          +:+ "la période se terminant le " +:+ e +:+ "</h4>")
  end.

(** The cell "Creation of the interactive map".  Latitudes are taken as
    the rationals the floats denote; [center_lat] is their exact
    midpoint, where the cell rounds to the nearest float. *)
Definition map_cell (l : lang) (p : params) (hd : gmap string (Frame date obs))
    (stations : list string) : view station_map :=
  latitudes ← view_map (fun station =>
                 df ← getitem hd station; column_first obs_LATITUDE df) stations;
  lo ← py_min latitudes;
  hi ← py_max latitudes;
  let center_lat := ((lo + hi) / 2)%Q in
  heading ← match msg_map_heading l p with
             | Ok h => Shown h
             | Raise e => Fails (Uncaught e)
             end;
  markers ← view_map (fun station =>
               df ← getitem hd station;
               latest_data ← iloc_last df;
               Shown {| marker_location := (obs_LATITUDE latest_data.2,
                                            obs_LONGITUDE latest_data.2);
                        marker_data := latest_data |}) stations;
  Shown {| map_center := (center_lat, long p);
           map_zoom := 8;
           map_heading := heading;
           map_markers := markers |}.

(** The row a feature of the API becomes in a stored frame. *)
Definition feature_entry (el : hydro_feature) : date * obs :=
  (prop_DATE el,
   {| obs_STATION_NUMBER := prop_STATION_NUMBER el;
      obs_STATION_NAME := prop_STATION_NAME el;
      obs_LEVEL := prop_LEVEL el;
      obs_LATITUDE := (coordinates el).2;
      obs_LONGITUDE := (coordinates el).1 |}).

Definition feature_missing (el : hydro_feature) : bool := isnan (prop_LEVEL el).

(** The first latitude of a station and the marker of a station, as the
    map cell computes them. *)
Definition first_latitude_of (collection_items : string -> list hydro_feature)
    (s : string) (y : Q) : Prop :=
  exists el els, collection_items s = el :: els /\ y = (coordinates el).2.

Definition marker_of (collection_items : string -> list hydro_feature)
    (s : string) (mk : marker) : Prop :=
  exists t x gap,
    collection_items s = t ++ x :: gap /\
    feature_missing x = false /\
    forallb feature_missing gap = true /\
    mk = {| marker_location := ((coordinates x).2, (coordinates x).1);
            marker_data := feature_entry x |}.

(** * Properties *)

(** ** Results *)

Lemma bind_Ok {A B : Type} (f : A -> result B) (a : A) : Ok a ≫= f = f a.
Proof. reflexivity. Qed.

(** ** Trimming, as the spec words it *)

Section TrimTrailing.

Context {A : Type} (missing : A -> bool).

Lemma trim_trailing_snoc (l : list A) (x : A) :
  trim_trailing missing (l ++ [x]) =
  if missing x then trim_trailing missing l else l ++ [x].
Proof.
  induction l as [|y l IH]; simpl.
  - destruct (missing x); reflexivity.
  - rewrite IH. destruct (missing x); [reflexivity|].
    destruct l; reflexivity.
Qed.

Lemma trims_to_fun (l t : list A) :
  trims_to missing l t <-> t = trim_trailing missing l.
Proof.
  split.
  - induction 1 as [|l x Hx|l x t Hx _ IH].
    + reflexivity.
    + rewrite trim_trailing_snoc, Hx. reflexivity.
    + rewrite trim_trailing_snoc, Hx. exact IH.
  - intros ->. induction l as [|x l IH] using rev_ind.
    + constructor.
    + rewrite trim_trailing_snoc. destruct (missing x) eqn:Hx.
      * by apply trims_drop.
      * by apply trims_present.
Qed.

Lemma trim_trailing_split (l : list A) :
  exists gap, l = trim_trailing missing l ++ gap /\ forallb missing gap = true.
Proof.
  induction l as [|x l IH] using rev_ind.
  - exists []. split; reflexivity.
  - rewrite trim_trailing_snoc. destruct (missing x) eqn:Hx.
    + destruct IH as (gap & Hl & Hgap). exists (gap ++ [x]). split.
      * rewrite app_assoc, <- Hl. reflexivity.
      * rewrite forallb_app, Hgap. simpl. rewrite Hx. reflexivity.
    + exists []. split; [by rewrite app_nil_r | reflexivity].
Qed.

Lemma trim_trailing_prefix (l : list A) : trim_trailing missing l `prefix_of` l.
Proof. destruct (trim_trailing_split l) as (gap & Hl & _). by exists gap. Qed.

Lemma trim_trailing_last (l : list A) (x : A) :
  last (trim_trailing missing l) = Some x -> missing x = false.
Proof.
  induction l as [|y l IH] using rev_ind; [discriminate|].
  rewrite trim_trailing_snoc. destruct (missing y) eqn:Hy; [exact IH|].
  rewrite last_snoc. congruence.
Qed.

Lemma trim_trailing_nil (l : list A) :
  trim_trailing missing l = [] <-> forallb missing l = true.
Proof.
  induction l as [|y l IH] using rev_ind; [done|].
  rewrite trim_trailing_snoc, forallb_app. simpl.
  destruct (missing y).
  - rewrite IH. destruct (forallb missing l); done.
  - split; [by destruct l | by destruct (forallb missing l)].
Qed.

Lemma trim_trailing_fixed (l : list A) (x : A) :
  last l = Some x -> missing x = false -> trim_trailing missing l = l.
Proof.
  intros [l' ->]%last_Some Hx. by rewrite trim_trailing_snoc, Hx.
Qed.

Lemma trim_trailing_idemp (l : list A) :
  trim_trailing missing (trim_trailing missing l) = trim_trailing missing l.
Proof.
  destruct (last (trim_trailing missing l)) as [x|] eqn:Hl.
  - eapply trim_trailing_fixed; eauto using trim_trailing_last.
  - apply last_None in Hl. rewrite Hl. reflexivity.
Qed.

End TrimTrailing.

Lemma trim_trailing_map {A B : Type} (f : A -> B) (missing : B -> bool) (l : list A) :
  trim_trailing missing (map f l) = map f (trim_trailing (missing ∘ f) l).
Proof.
  induction l as [|x l IH]; [reflexivity|].
  simpl. rewrite IH.
  destruct (trim_trailing (missing ∘ f) l); simpl; [|reflexivity].
  destruct (missing (f x)); reflexivity.
Qed.

(** ** The trimming loop *)

Lemma trim_loop_eq (df : Frame nat row) :
  trim_loop df =
  match iloc_last_LEVEL df with
  | Raise e => Raise e
  | Ok v => if isnan v then trim_loop (drop (tail1_index df) df) else Ok df
  end.
Proof.
  funelim (trim_loop df).
  - by rewrite e1.
  - by rewrite Hv, Heq.
  - by rewrite Hv, Heq.
Qed.

Lemma trim_loop_nil : trim_loop [] = Raise IndexError.
Proof. by rewrite trim_loop_eq. Qed.

Lemma trim_loop_snoc (df : Frame nat row) (i : nat) (r : row) :
  trim_loop (df ++ [(i, r)]) =
  if isnan (LEVEL r) then trim_loop (drop [i] (df ++ [(i, r)]))
  else Ok (df ++ [(i, r)]).
Proof.
  rewrite trim_loop_eq at 1.
  unfold iloc_last_LEVEL, tail1_index. by rewrite last_snoc.
Qed.

Lemma filter_Forall_id {A : Type} (P : A -> Prop) `{forall x, Decision (P x)}
    (l : list A) :
  Forall P l -> filter P l = l.
Proof.
  induction 1 as [|x l Hx _ IH]; [reflexivity|].
  rewrite filter_cons_True by done. by rewrite IH.
Qed.

(** With labels that are all different, dropping the label of the last
    row drops the last row and nothing else. *)
Lemma drop_last_label {I R : Type} `{EqDecision I} (df : Frame I R) (i : I) (r : R) :
  NoDup (df ++ [(i, r)]).*1 -> drop [i] (df ++ [(i, r)]) = df.
Proof.
  rewrite fmap_app. simpl. intros Hnd.
  apply NoDup_app in Hnd as (_ & Hdisj & _).
  unfold drop. rewrite filter_app.
  rewrite filter_cons_False by (simpl; set_solver).
  rewrite filter_nil, app_nil_r.
  apply filter_Forall_id, Forall_forall. intros [j r'] Hin. simpl.
  intros Hj. apply (Hdisj j); [|done].
  apply list_elem_of_fmap. by exists (j, r').
Qed.

Lemma pd_DataFrame_labels {R : Type} (rows : list R) :
  (pd_DataFrame rows).*1 = seq 0 (length rows).
Proof. unfold pd_DataFrame. apply fst_zip. by rewrite length_seq. Qed.

Lemma pd_DataFrame_rows {R : Type} (rows : list R) :
  (pd_DataFrame rows).*2 = rows.
Proof. unfold pd_DataFrame. apply snd_zip. by rewrite length_seq. Qed.

Lemma pd_DataFrame_NoDup {R : Type} (rows : list R) :
  NoDup (pd_DataFrame rows).*1.
Proof. rewrite pd_DataFrame_labels. apply NoDup_seq. Qed.

(** On a frame whose labels are all different the loop computes what the
    spec describes, and raises exactly when nothing would be left. *)
Lemma trim_loop_spec (df : Frame nat row) :
  NoDup df.*1 ->
  trim_loop df =
  match trim_trailing row_missing df with
  | [] => Raise IndexError
  | t => Ok t
  end.
Proof.
  induction df as [|[i r] df IH] using rev_ind; intros Hnd.
  - apply trim_loop_nil.
  - rewrite trim_loop_snoc, trim_trailing_snoc. unfold row_missing at 1. simpl.
    destruct (isnan (LEVEL r)).
    + rewrite drop_last_label by done. apply IH.
      rewrite fmap_app in Hnd. by apply NoDup_app in Hnd as (? & _).
    + by destruct df.
Qed.

(** Whatever the labels, a frame the loop returns is left alone by the
    loop. *)
Lemma trim_loop_fixed (df df' : Frame nat row) :
  trim_loop df = Ok df' -> trim_loop df' = Ok df'.
Proof.
  funelim (trim_loop df); intros Hdf.
  - discriminate.
  - eauto.
  - inversion Hdf; subst. by rewrite <- Heqcall.
Qed.

(** ** The retrieval cell *)

Lemma no_num_months (l : lang) (p : params) :
  msg_no_water_level l p = Raise (NameError "num_months").
Proof. destruct l; reflexivity. Qed.

Lemma list_remove_fresh_prefix (x : string) (pre l : list string) :
  x ∉ pre -> list_remove x (pre ++ x :: l) = Ok (pre ++ l).
Proof.
  induction pre as [|y pre IH]; simpl; intros Hx.
  - by rewrite decide_True.
  - apply not_elem_of_cons in Hx as [Hxy Hx].
    rewrite decide_False by done. rewrite IH by done. reflexivity.
Qed.

Section AssemblerFacts.

Variable collection_items : string -> list hydro_feature.

Local Abbreviation usable := (usable collection_items).
Local Abbreviation station_body := (station_body collection_items).
Local Abbreviation historical_data_df := (historical_data_df collection_items).
Local Abbreviation stored_frame := (stored_frame collection_items).
Local Abbreviation station_result := (station_result collection_items).
Local Abbreviation retrieve_loops := (retrieve_loops collection_items).
Local Abbreviation retrieve := (retrieve collection_items).
Local Abbreviation records := (records collection_items).
Local Abbreviation loops_state := (loops_state collection_items).

(** The guarded loop never raises and leaves a frame with rows. *)
Lemma trim_loop_guarded (station : string) :
  LEVEL_isnull_all (historical_data_df station) = false ->
  trim_loop (historical_data_df station) =
    Ok (trim_trailing row_missing (historical_data_df station)) /\
  trim_trailing row_missing (historical_data_df station) <> [].
Proof.
  intros Hnull.
  assert (trim_trailing row_missing (historical_data_df station) <> []) as Hne.
  { rewrite trim_trailing_nil. unfold LEVEL_isnull_all in Hnull.
    unfold row_missing. rewrite Hnull. done. }
  split; [|done].
  rewrite trim_loop_spec by apply pd_DataFrame_NoDup.
  by destruct (trim_trailing _ _).
Qed.

Lemma station_body_eq (st : hydro_state) (station : string) :
  station_body st station = Ok (station_result st station).
Proof.
  unfold station_body, station_result, usable.
  destruct (collection_items station) eqn:E; [reflexivity|].
  destruct (LEVEL_isnull_all (historical_data_df station)) eqn:Hnull;
    [reflexivity|].
  simpl. apply trim_loop_guarded in Hnull as [-> _]. reflexivity.
Qed.

Lemma for_each_station_body (l : list string) (st : hydro_state) :
  for_each station_body l st = Ok (foldl station_result st l).
Proof.
  revert st. induction l as [|s l IH]; intros st; [reflexivity|].
  simpl. rewrite station_body_eq. simpl. apply IH.
Qed.

Lemma foldl_hydrometric_data (l : list string) (st : hydro_state) (s : string) :
  hydrometric_data (foldl station_result st l) !! s =
  if decide (s ∈ l /\ usable s = true) then Some (stored_frame s)
  else hydrometric_data st !! s.
Proof.
  revert st. induction l as [|x l IH]; intros st.
  - rewrite decide_False by (intros [?%elem_of_nil _]; done). reflexivity.
  - cbn [foldl]. rewrite IH. unfold station_result at 1.
    destruct (decide (s ∈ l /\ usable s = true)) as [[Hin Hu]|Hn].
    + rewrite decide_True; [done | split; [by apply elem_of_cons; right | done]].
    + destruct (decide (s = x)) as [->|Hne].
      * destruct (usable x) eqn:Hx;
          cbn [hydrometric_data add_frame add_without_data].
        -- rewrite lookup_insert_eq, decide_True;
             [done | split; [by apply elem_of_cons; left | done]].
        -- rewrite decide_False; [done | intros [_ ?]; congruence].
      * rewrite decide_False
          by (intros [[?|?]%elem_of_cons ?]; [done | by apply Hn]).
        destruct (usable x);
          cbn [hydrometric_data add_frame add_without_data];
          [by rewrite lookup_insert_ne | done].
Qed.

Lemma foldl_without_data (l : list string) (st : hydro_state) :
  stations_without_data (foldl station_result st l) =
  stations_without_data st ++ filter (fun s => usable s = false) l.
Proof.
  revert st. induction l as [|x l IH]; intros st.
  - by rewrite app_nil_r.
  - cbn [foldl]. rewrite IH. unfold station_result at 1.
    destruct (usable x) eqn:Hx;
      cbn [stations_without_data add_frame add_without_data].
    + by rewrite filter_cons_False by congruence.
    + rewrite filter_cons_True by done. by rewrite <- app_assoc.
Qed.

(** Removing the stations without data, one [remove] each, leaves the
    usable stations in their order. *)
Lemma remove_without_data (pre l : list string) :
  Forall (fun s => usable s = true) pre ->
  for_each (fun l0 station => list_remove station l0)
    (filter (fun s => usable s = false) l) (pre ++ l) =
  Ok (pre ++ filter (fun s => usable s = true) l).
Proof.
  revert pre. induction l as [|x l IH]; intros pre Hpre; [reflexivity|].
  destruct (usable x) eqn:Hx.
  - rewrite filter_cons_False by congruence.
    rewrite filter_cons_True by done.
    rewrite (cons_middle x pre l), app_assoc.
    rewrite IH by (apply Forall_app; auto).
    by rewrite <- app_assoc.
  - rewrite filter_cons_True by done.
    rewrite filter_cons_False by congruence.
    simpl. rewrite list_remove_fresh_prefix.
    + simpl. by apply IH.
    + intros Hin. rewrite Forall_forall in Hpre. apply Hpre in Hin. congruence.
Qed.

Lemma retrieve_loops_eq (stations : list string) :
  retrieve_loops stations =
  Ok (filter (fun s => usable s = true) stations, loops_state stations).
Proof.
  unfold retrieve_loops. rewrite for_each_station_body. simpl.
  rewrite foldl_without_data. simpl.
  pose proof (remove_without_data [] stations (Forall_nil_2 _)) as Hrm.
  simpl in Hrm. rewrite Hrm. reflexivity.
Qed.

Lemma loops_state_lookup (stations : list string) (s : string) :
  hydrometric_data (loops_state stations) !! s =
  if decide (s ∈ stations /\ usable s = true) then Some (stored_frame s)
  else None.
Proof. unfold loops_state. by rewrite foldl_hydrometric_data. Qed.

Lemma loops_state_without_data (stations : list string) :
  stations_without_data (loops_state stations) =
  filter (fun s => usable s = false) stations.
Proof. unfold loops_state. by rewrite foldl_without_data. Qed.

End AssemblerFacts.

(** ** What a stored frame holds *)

Lemma series_set_index {I : Type} (df : Frame I row) :
  series (set_index_DATE df) = map (fun r => (DATE r, LEVEL r)) df.*2.
Proof.
  unfold series, set_index_DATE.
  induction df as [|ir df IH]; [reflexivity|].
  simpl. by rewrite IH.
Qed.

Lemma trim_trailing_rows {I : Type} (df : Frame I row) :
  (trim_trailing row_missing df).*2 =
  trim_trailing (fun r => isnan (LEVEL r)) df.*2.
Proof.
  induction df as [|ir df IH]; [reflexivity|].
  cbn [trim_trailing fmap list_fmap]. rewrite <- IH.
  destruct (trim_trailing row_missing df); [|reflexivity].
  unfold row_missing. by destruct (isnan (LEVEL ir.2)).
Qed.

Lemma forallb_rows {I : Type} (df : Frame I row) :
  LEVEL_isnull_all df = forallb (fun r => isnan (LEVEL r)) df.*2.
Proof.
  unfold LEVEL_isnull_all.
  induction df as [|ir df IH]; [reflexivity|]. simpl. by rewrite IH.
Qed.

Section SeriesFacts.

Variable collection_items : string -> list hydro_feature.

Lemma series_stored_frame (station : string) :
  series (stored_frame collection_items station) =
  trim_trailing value_missing (records collection_items station).
Proof.
  unfold stored_frame, historical_data_df, records.
  rewrite series_set_index, trim_trailing_rows, pd_DataFrame_rows.
  rewrite <- (trim_trailing_map (fun r => (DATE r, LEVEL r)) value_missing).
  rewrite map_map. reflexivity.
Qed.

Lemma all_null_records (station : string) :
  LEVEL_isnull_all (historical_data_df collection_items station) =
  forallb value_missing (records collection_items station).
Proof.
  unfold historical_data_df, records.
  rewrite forallb_rows, pd_DataFrame_rows.
  induction (collection_items station) as [|el els IH]; [reflexivity|].
  simpl. by rewrite IH.
Qed.

End SeriesFacts.

Section EntityFacts.

Variable collection_items : string -> list hydro_feature.

Local Abbreviation usable := (usable collection_items).
Local Abbreviation stored_frame := (stored_frame collection_items).
Local Abbreviation records := (records collection_items).
Local Abbreviation retrieve_loops := (retrieve_loops collection_items).
Local Abbreviation retrieve := (retrieve collection_items).
Local Abbreviation loops_state := (loops_state collection_items).

(** A station is usable exactly when one of its values is present. *)
Lemma usable_records (station : string) :
  usable station = negb (forallb value_missing (records station)).
Proof.
  rewrite <- all_null_records. unfold usable.
  pose proof (all_null_records collection_items station) as Hall.
  unfold records in Hall.
  destruct (collection_items station); [|reflexivity].
  by rewrite Hall.
Qed.

Lemma stored_series_last (station : string) :
  usable station = true ->
  exists d v, last (series (stored_frame station)) = Some (d, Some v).
Proof.
  rewrite usable_records, negb_true_iff, series_stored_frame. intros Hm.
  destruct (last (trim_trailing value_missing (records station)))
    as [[d v]|] eqn:Hl.
  - apply trim_trailing_last in Hl as Hv. destruct v as [v|]; [|done].
    by exists d, v.
  - apply last_None, trim_trailing_nil in Hl. congruence.
Qed.

Lemma stored_frame_nonempty (station : string) :
  usable station = true -> stored_frame station <> [].
Proof.
  intros (d & v & Hl)%stored_series_last Hnil.
  rewrite Hnil in Hl. discriminate.
Qed.

Lemma lookup_Some_usable (stations : list string) (s : string)
    (df : Frame date obs) :
  hydrometric_data (loops_state stations) !! s = Some df ->
  s ∈ stations /\ usable s = true /\ df = stored_frame s.
Proof.
  rewrite loops_state_lookup.
  destruct (decide _) as [[? ?]|]; [|discriminate].
  intros [= <-]. done.
Qed.

Lemma elem_of_without_data (stations : list string) (s : string) :
  s ∈ stations_without_data (loops_state stations) <->
  s ∈ stations /\ usable s = false.
Proof.
  rewrite loops_state_without_data, list_elem_of_filter. tauto.
Qed.

End EntityFacts.

(** * The claims on the retrieval cell *)

(** C2. For each station of the list the cell stores the records of the
    station with the trailing records without value dropped one by one
    (the rest, gaps between values included, is an unchanged prefix of
    the records), or sets the station aside when nothing is left; the
    records (d1, 1.2), (d2, missing), (d3, missing) give the series
    (d1, 1.2). *)
Theorem assembler_trims_trailing_gaps :
  (forall (collection_items : string -> list hydro_feature)
          (stations : list string) (station : string),
      station ∈ stations ->
      exists stations' st t,
        retrieve_loops collection_items stations = Ok (stations', st) /\
        trims_to value_missing (records collection_items station) t /\
        t `prefix_of` records collection_items station /\
        (t <> [] -> series <$> hydrometric_data st !! station = Some t) /\
        (t = [] -> hydrometric_data st !! station = None /\
                   station ∈ stations_without_data st)) /\
  (exists stations' st,
      retrieve_loops scenario_items ["X"] = Ok (stations', st) /\
      records scenario_items "X" = [(d1, Some (12 # 10)%Q); (d2, None); (d3, None)] /\
      series <$> hydrometric_data st !! "X" = Some [(d1, Some (12 # 10)%Q)]).
Proof.
  split.
  - intros ci stations station Hin.
    exists (filter (fun s => usable ci s = true) stations), (loops_state ci stations),
      (trim_trailing value_missing (records ci station)).
    split; [apply retrieve_loops_eq|].
    split; [by apply trims_to_fun|].
    split; [apply trim_trailing_prefix|].
    rewrite loops_state_lookup, elem_of_without_data, usable_records.
    rewrite trim_trailing_nil.
    destruct (forallb value_missing (records ci station)) eqn:Hall; simpl.
    + split; [done|]. intros _. rewrite decide_False by (intros [_ ?]; done). done.
    + split; [|done]. intros _. rewrite decide_True by done. simpl.
      by rewrite series_stored_frame.
  - eexists _, _. split; [apply retrieve_loops_eq|].
    split; [reflexivity|].
    rewrite loops_state_lookup. rewrite decide_True.
    + vm_compute. reflexivity.
    + split; [by apply list_elem_of_singleton | reflexivity].
Qed.

Lemma assembler_trims_trailing_gaps_witness :
  "W" ∈ ["X"; "W"] /\
  exists stations' st t,
    retrieve_loops scenario_items ["X"; "W"] = Ok (stations', st) /\
    trims_to value_missing (records scenario_items "W") t /\
    t `prefix_of` records scenario_items "W" /\
    (t <> [] -> series <$> hydrometric_data st !! "W" = Some t) /\
    (t = [] -> hydrometric_data st !! "W" = None /\
               "W" ∈ stations_without_data st).
Proof.
  assert ("W" ∈ ["X"; "W"]) as Hin by (apply elem_of_cons; right; apply elem_of_cons; by left).
  split; [exact Hin|].
  exact (proj1 assembler_trims_trailing_gaps scenario_items ["X"; "W"] "W" Hin).
Defined.

(** C3. Every station of the list ends up either with a frame in
    [hydrometric_data] or in [stations_without_data], never in both; a
    station whose values are all missing, or that has no record in the
    period, is set aside and has no frame; no stored frame is empty. *)
Theorem exclusion_partition
    (collection_items : string -> list hydro_feature) (stations : list string) :
  exists stations' st,
    retrieve_loops collection_items stations = Ok (stations', st) /\
    (forall s, s ∈ stations ->
       (is_Some (hydrometric_data st !! s) /\ s ∉ stations_without_data st) \/
       (hydrometric_data st !! s = None /\ s ∈ stations_without_data st)) /\
    (forall s, is_Some (hydrometric_data st !! s) ->
       s ∈ stations_without_data st -> False) /\
    (forall s, s ∈ stations ->
       forallb value_missing (records collection_items s) = true ->
       s ∈ stations_without_data st /\ hydrometric_data st !! s = None) /\
    (forall s df, hydrometric_data st !! s = Some df -> df <> []).
Proof.
  eexists _, _. split; [apply retrieve_loops_eq|].
  split; [|split; [|split]].
  - intros s Hin. rewrite loops_state_lookup, elem_of_without_data.
    destruct (usable collection_items s) eqn:Hu.
    + left. rewrite decide_True by done. split; [by eexists|].
      intros [_ ?]; done.
    + right. rewrite decide_False by (intros [_ ?]; done). done.
  - intros s [df Hdf] Hs.
    apply lookup_Some_usable in Hdf as (_ & Hu & _).
    apply elem_of_without_data in Hs as [_ Hs]. congruence.
  - intros s Hin Hall. split.
    + apply elem_of_without_data. split; [done|].
      rewrite usable_records. by rewrite Hall.
    + rewrite loops_state_lookup. rewrite decide_False; [done|].
      intros [_ Hu]. rewrite usable_records in Hu. by rewrite Hall in Hu.
  - intros s df (_ & Hu & ->)%lookup_Some_usable.
    by apply stored_frame_nonempty.
Qed.

Lemma exclusion_partition_witness :
  exists st,
    (hydrometric_data st !! "Y" = None /\ "Y" ∈ stations_without_data st) /\
    is_Some (hydrometric_data st !! "X").
Proof.
  destruct (exclusion_partition scenario_items ["X"; "Y"])
    as (stations' & st & Hrun & Hone & Hboth & Hmissing & Hnonempty).
  exists st. split.
  - apply and_comm, Hmissing; [|reflexivity].
    apply elem_of_cons; right; apply elem_of_cons; by left.
  - destruct (Hone "X") as [[HX _]|[_ HX]]; [by apply elem_of_cons; left|done|].
    exfalso. rewrite retrieve_loops_eq in Hrun. injection Hrun as _ <-.
    apply elem_of_without_data in HX as [_ HX]. vm_compute in HX. discriminate.
Defined.

(** C6. A frame stored for a station has rows, holds at least one present
    value and ends with a present value; a station all of whose values
    are missing, or that has no record, gets no frame. *)
Theorem entity_series_invariant
    (collection_items : string -> list hydro_feature) (stations : list string) :
  exists stations' st,
    retrieve_loops collection_items stations = Ok (stations', st) /\
    (forall s df, hydrometric_data st !! s = Some df ->
       series df <> [] /\
       (exists d v, (d, Some v) ∈ series df) /\
       (exists d v, last (series df) = Some (d, Some v))) /\
    (forall s, forallb value_missing (records collection_items s) = true ->
       hydrometric_data st !! s = None).
Proof.
  eexists _, _. split; [apply retrieve_loops_eq|]. split.
  - intros s df (_ & Hu & ->)%lookup_Some_usable.
    destruct (stored_series_last _ _ Hu) as (d & v & Hl).
    split; [by intros Hnil; rewrite Hnil in Hl|].
    split; exists d, v; [|done].
    apply last_Some in Hl as [l' ->]. apply elem_of_app; right.
    by apply list_elem_of_singleton.
  - intros s Hall. rewrite loops_state_lookup. rewrite decide_False; [done|].
    intros [_ Hu]. rewrite usable_records in Hu. by rewrite Hall in Hu.
Qed.

Lemma entity_series_invariant_witness :
  exists st df,
    hydrometric_data st !! "W" = Some df /\
    series df <> [] /\
    (exists d v, last (series df) = Some (d, Some v)) /\
    hydrometric_data st !! "Y" = None.
Proof.
  destruct (entity_series_invariant scenario_items ["W"; "Y"])
    as (stations' & st & Hrun & Hsome & Hnone).
  rewrite retrieve_loops_eq in Hrun. injection Hrun as _ <-.
  exists (loops_state scenario_items ["W"; "Y"]),
    (stored_frame scenario_items "W").
  assert (hydrometric_data (loops_state scenario_items ["W"; "Y"]) !! "W"
          = Some (stored_frame scenario_items "W")) as HW by (vm_compute; reflexivity).
  split; [exact HW|].
  destruct (Hsome _ _ HW) as (Hne & _ & Hlast).
  split; [exact Hne|]. split; [exact Hlast|].
  apply Hnone. reflexivity.
Defined.

(** C8. Running the trimming loop on what the trimming loop returned
    changes nothing: the second run returns its argument. *)
Theorem trim_loop_idempotent :
  (forall df : Frame nat row, trim_loop df ≫= trim_loop = trim_loop df) /\
  (forall rows : list row,
     LEVEL_isnull_all (pd_DataFrame rows) = false ->
     exists df', trim_loop (pd_DataFrame rows) = Ok df' /\
                 trim_loop df' = Ok df') /\
  (forall (A : Type) (missing : A -> bool) (l : list A),
     trim_trailing missing (trim_trailing missing l) = trim_trailing missing l).
Proof.
  split; [|split].
  - intros df. destruct (trim_loop df) as [df'|e] eqn:Hdf; [|reflexivity].
    simpl. by apply trim_loop_fixed in Hdf.
  - intros rows Hnull.
    rewrite trim_loop_spec by apply pd_DataFrame_NoDup.
    destruct (trim_trailing row_missing (pd_DataFrame rows)) as [|ir t] eqn:Ht.
    + apply trim_trailing_nil in Ht. unfold LEVEL_isnull_all in Hnull.
      unfold row_missing in Ht. congruence.
    + exists (ir :: t). split; [done|].
      apply (trim_loop_fixed (pd_DataFrame rows)).
      rewrite trim_loop_spec by apply pd_DataFrame_NoDup. by rewrite Ht.
  - intros A missing l. apply trim_trailing_idemp.
Qed.

Lemma trim_loop_idempotent_witness :
  exists df',
    trim_loop (historical_data_df scenario_items "X") = Ok df' /\
    trim_loop df' = Ok df'.
Proof.
  apply (proj1 (proj2 trim_loop_idempotent)). reflexivity.
Defined.

(** C10. The trimming loop runs only on a frame that has a present
    value; there it never reads the last row of an empty frame, it ends,
    and the frame it leaves has rows.  So the loop body of the cell never
    raises. *)
Theorem trim_loop_guarded_safe :
  (forall rows : list row,
     LEVEL_isnull_all (pd_DataFrame rows) = false ->
     exists df', trim_loop (pd_DataFrame rows) = Ok df' /\ df' <> []) /\
  (forall (collection_items : string -> list hydro_feature)
          (st : hydro_state) (station : string),
     exists st', station_body collection_items st station = Ok st' /\
       (usable collection_items station = false ->
          st' = add_without_data station st)).
Proof.
  split.
  - intros rows Hnull.
    rewrite trim_loop_spec by apply pd_DataFrame_NoDup.
    destruct (trim_trailing row_missing (pd_DataFrame rows)) as [|ir t] eqn:Ht.
    + apply trim_trailing_nil in Ht. unfold LEVEL_isnull_all in Hnull.
      unfold row_missing in Ht. congruence.
    + by exists (ir :: t).
  - intros ci st station. eexists. split; [apply station_body_eq|].
    unfold station_result. by intros ->.
Qed.

Lemma trim_loop_guarded_safe_witness :
  exists df', trim_loop (historical_data_df scenario_items "W") = Ok df' /\ df' <> [].
Proof.
  apply (proj1 trim_loop_guarded_safe). reflexivity.
Defined.

(** Without the guard the loop would fail: on a frame without any present
    value it ends by reading the last row of an empty frame. *)
Lemma trim_loop_all_null (rows : list row) :
  LEVEL_isnull_all (pd_DataFrame rows) = true ->
  trim_loop (pd_DataFrame rows) = Raise IndexError.
Proof.
  intros Hnull. rewrite trim_loop_spec by apply pd_DataFrame_NoDup.
  unfold LEVEL_isnull_all in Hnull.
  apply (trim_trailing_nil row_missing) in Hnull. by rewrite Hnull.
Qed.

(** With a label carried by two rows the guard would not be enough; the
    fresh [RangeIndex] of [pd.DataFrame] matters. *)
Example trim_loop_repeated_label :
  let r v := Row "X" "Station X" d1 v 0%Q 0%Q in
  LEVEL_isnull_all [(0, r (Some 1%Q)); (0, r None)] = false /\
  trim_loop [(0, r (Some 1%Q)); (0, r None)] = Raise IndexError.
Proof. split; reflexivity. Qed.

(** ** The closing check of the cell *)

Lemma retrieve_eq (collection_items : string -> list hydro_feature)
    (l : lang) (p : params) (stations : list string) :
  retrieve collection_items l p stations =
  match filter (fun s => usable collection_items s = true) stations with
  | [] => Raise (NameError "num_months")
  | s :: kept => Ok (s :: kept, loops_state collection_items stations)
  end.
Proof.
  unfold retrieve. rewrite retrieve_loops_eq. simpl.
  destruct (filter _ stations); [|reflexivity].
  by rewrite no_num_months.
Qed.

Lemma filter_usable_nil (collection_items : string -> list hydro_feature)
    (stations : list string) :
  filter (fun s => usable collection_items s = true) stations = [] <->
  forall s, s ∈ stations -> usable collection_items s = false.
Proof.
  split.
  - intros Hnil s Hin. destruct (usable collection_items s) eqn:Hu; [|done].
    exfalso. eapply filter_nil_not_elem_of; [exact Hnil| |exact Hin]. done.
  - intros Hall. induction stations as [|x l IH]; [reflexivity|].
    rewrite filter_cons_False.
    + apply IH. intros s Hs. apply Hall, elem_of_cons. by right.
    + rewrite Hall; [done|]. apply elem_of_cons. by left.
Qed.

(** The frames depend on the records of the listed stations only. *)
Lemma loops_state_ext (ci ci' : string -> list hydro_feature)
    (stations : list string) (st : hydro_state) :
  (forall s, s ∈ stations -> ci s = ci' s) ->
  foldl (station_result ci) st stations = foldl (station_result ci') st stations.
Proof.
  revert st. induction stations as [|x l IH]; intros st Hext; [reflexivity|].
  cbn [foldl].
  assert (station_result ci st x = station_result ci' st x) as ->.
  { unfold station_result, usable, stored_frame, historical_data_df.
    rewrite (Hext x); [reflexivity|]. apply elem_of_cons. by left. }
  apply IH. intros s Hs. apply Hext, elem_of_cons. by right.
Qed.

Lemma filter_usable_ext (ci ci' : string -> list hydro_feature)
    (stations : list string) :
  (forall s, s ∈ stations -> ci s = ci' s) ->
  filter (fun s => usable ci s = true) stations =
  filter (fun s => usable ci' s = true) stations.
Proof.
  induction stations as [|x l IH]; intros Hext; [reflexivity|].
  assert (usable ci x = usable ci' x) as Hx.
  { unfold usable, historical_data_df.
    rewrite (Hext x); [reflexivity|]. apply elem_of_cons. by left. }
  rewrite !filter_cons, Hx.
  rewrite IH; [reflexivity|]. intros s Hs. apply Hext, elem_of_cons. by right.
Qed.

(** C9, as the cell behaves.  The outcome of the cell is a function of
    the station list and of the records of the listed stations;
    processing the stations in another order gives the same frames, the
    same set of stations without data and the same failure or success.
    The cell has an effect besides its two containers: it removes the
    stations without data from [stations], which afterwards holds the
    stations that have a frame; run again on the list it left and the
    same records, the cell builds the same frames, leaves the list as it
    is and finds no station without data. *)
Theorem retrieve_deterministic
    (collection_items : string -> list hydro_feature) (l : lang) (p : params)
    (stations1 stations2 : list string) :
  stations1 ≡ₚ stations2 ->
  (exists kept1 st1 kept2 st2,
      retrieve_loops collection_items stations1 = Ok (kept1, st1) /\
      retrieve_loops collection_items stations2 = Ok (kept2, st2) /\
      hydrometric_data st1 = hydrometric_data st2 /\
      stations_without_data st1 ≡ₚ stations_without_data st2 /\
      list_to_set (stations_without_data st1)
        =@{gset string} list_to_set (stations_without_data st2) /\
      kept1 ≡ₚ kept2) /\
  (forall e, retrieve collection_items l p stations1 = Raise e <->
             retrieve collection_items l p stations2 = Raise e) /\
  (forall collection_items' : string -> list hydro_feature,
      (forall s, s ∈ stations1 -> collection_items s = collection_items' s) ->
      retrieve collection_items l p stations1 =
      retrieve collection_items' l p stations1) /\
  (forall kept1 st1,
      retrieve_loops collection_items stations1 = Ok (kept1, st1) ->
      (forall s, s ∈ kept1 <->
                 s ∈ stations1 /\ s ∉ stations_without_data st1) /\
      exists st1',
        retrieve_loops collection_items kept1 = Ok (kept1, st1') /\
        hydrometric_data st1' = hydrometric_data st1 /\
        stations_without_data st1' = []).
Proof.
  intros Hperm. split; [|split; [|split]].
  - eexists _, _, _, _.
    split; [apply retrieve_loops_eq|]. split; [apply retrieve_loops_eq|].
    assert (stations_without_data (loops_state collection_items stations1)
            ≡ₚ stations_without_data (loops_state collection_items stations2))
      as Hswd by (rewrite !loops_state_without_data; by rewrite Hperm).
    split; [|split; [exact Hswd|split]].
    + apply map_eq. intros s. rewrite !loops_state_lookup.
      destruct (decide (s ∈ stations1 /\ _)) as [[Hin Hu]|Hn].
      * rewrite decide_True; [done|]. split; [by rewrite <- Hperm | done].
      * rewrite decide_False; [done|]. intros [Hin Hu]. apply Hn.
        split; [by rewrite Hperm | done].
    + apply set_eq. intros s. rewrite !elem_of_list_to_set. by rewrite Hswd.
    + by rewrite Hperm.
  - intros e. rewrite !retrieve_eq.
    assert (filter (fun s => usable collection_items s = true) stations1
            ≡ₚ filter (fun s => usable collection_items s = true) stations2)
      as Hkept by (by rewrite Hperm).
    destruct (filter _ stations1) as [|x1 k1], (filter _ stations2) as [|x2 k2];
      try done.
    + by apply Permutation_nil_cons in Hkept.
    + symmetry in Hkept. by apply Permutation_nil_cons in Hkept.
  - intros ci' Hext. rewrite !retrieve_eq.
    rewrite (filter_usable_ext _ ci' _ Hext). unfold loops_state.
    by rewrite (loops_state_ext _ ci' _ _ Hext).
  - intros kept1 st1. rewrite retrieve_loops_eq. intros [= <- <-]. split.
    + intros s. rewrite list_elem_of_filter, elem_of_without_data.
      destruct (usable collection_items s); split.
      * intros [_ Hin]. split; [done|]. by intros [_ ?].
      * by intros [Hin _].
      * by intros [? _].
      * intros [Hin Hnot]. by destruct Hnot.
    + exists (loops_state collection_items
                (filter (fun s => usable collection_items s = true) stations1)).
      assert (forall s,
                s ∈ filter (fun s => usable collection_items s = true) stations1
                /\ usable collection_items s = true <->
                s ∈ stations1 /\ usable collection_items s = true) as Hsame.
      { intros s. rewrite list_elem_of_filter. tauto. }
      split; [|split].
      * rewrite retrieve_loops_eq.
        rewrite (filter_Forall_id _ (filter _ stations1)); [done|].
        apply Forall_forall. by intros s [Hu _]%list_elem_of_filter.
      * apply map_eq. intros s. rewrite !loops_state_lookup.
        destruct (decide (s ∈ stations1 /\ _)) as [Hy|Hn].
        -- rewrite decide_True; [done | by apply Hsame].
        -- rewrite decide_False; [done|]. intros Hc. by apply Hn, Hsame.
      * rewrite loops_state_without_data.
        destruct (filter (fun s => usable collection_items s = false)
                    (filter (fun s => usable collection_items s = true)
                       stations1)) as [|s rest] eqn:Hnone; [done|].
        assert (s ∈ s :: rest) as Hs by (by apply elem_of_cons; left).
        rewrite <- Hnone in Hs.
        apply list_elem_of_filter in Hs as [Hf [Ht _]%list_elem_of_filter].
        congruence.
Qed.

Lemma retrieve_deterministic_witness :
  exists kept1 st1 kept2 st2,
    retrieve_loops scenario_items ["X"; "Y"; "W"] = Ok (kept1, st1) /\
    retrieve_loops scenario_items ["W"; "X"; "Y"] = Ok (kept2, st2) /\
    hydrometric_data st1 = hydrometric_data st2 /\
    stations_without_data st1 ≡ₚ stations_without_data st2 /\
    list_to_set (stations_without_data st1)
      =@{gset string} list_to_set (stations_without_data st2) /\
    kept1 ≡ₚ kept2.
Proof.
  apply (retrieve_deterministic scenario_items EN chilliwack
           ["X"; "Y"; "W"] ["W"; "X"; "Y"]).
  change ["X"; "Y"; "W"] with (["X"; "Y"] ++ ["W"]).
  apply Permutation_app_comm.
Defined.

(** C9, as the spec states it, fails: the cell is not free of side
    effects.  Run on X and Y, it sets Y aside and removes it from
    [stations]; run again on the same records, it starts from the list
    it left and reports no station without data, so the two runs do not
    give the same second component. *)
Lemma retrieve_prunes_stations :
  exists st1 st2,
    retrieve_loops scenario_items ["X"; "Y"] = Ok (["X"], st1) /\
    retrieve_loops scenario_items ["X"] = Ok (["X"], st2) /\
    ["X"] <> ["X"; "Y"] /\
    stations_without_data st1 = ["Y"] /\
    stations_without_data st2 = [] /\
    (hydrometric_data st1, stations_without_data st1)
      <> (hydrometric_data st2, stations_without_data st2).
Proof.
  exists (loops_state scenario_items ["X"; "Y"]),
    (loops_state scenario_items ["X"]).
  split; [apply retrieve_loops_eq|]. split; [apply retrieve_loops_eq|].
  split; [discriminate|].
  assert (stations_without_data (loops_state scenario_items ["X"; "Y"]) = ["Y"])
    as H1 by (rewrite loops_state_without_data; reflexivity).
  assert (stations_without_data (loops_state scenario_items ["X"]) = [])
    as H2 by (rewrite loops_state_without_data; reflexivity).
  split; [exact H1|]. split; [exact H2|].
  rewrite H1, H2. intros [= _].
Qed.

Lemma empty_mapping_unusable (collection_items : string -> list hydro_feature)
    (stations : list string) :
  hydrometric_data (loops_state collection_items stations) = ∅ <->
  forall s, s ∈ stations -> usable collection_items s = false.
Proof.
  split.
  - intros Hempty s Hin. destruct (usable collection_items s) eqn:Hu; [|done].
    pose proof (loops_state_lookup collection_items stations s) as Hs.
    rewrite Hempty, lookup_empty, decide_True in Hs; done.
  - intros Hall. apply map_eq. intros s.
    rewrite loops_state_lookup, lookup_empty.
    rewrite decide_False; [done|]. intros [Hin Hu]. rewrite Hall in Hu; done.
Qed.

(** C4. When every station ends up without data, so that
    [hydrometric_data] is empty, the closing check of the cell does not
    raise its [ValueError]: building the message fails first, with a
    [NameError] on [num_months]. *)
Theorem retrieve_all_excluded
    (collection_items : string -> list hydro_feature) (l : lang) (p : params)
    (stations kept : list string) (st : hydro_state) :
  retrieve_loops collection_items stations = Ok (kept, st) ->
  hydrometric_data st = ∅ ->
  retrieve collection_items l p stations = Raise (NameError "num_months") /\
  (forall msg, retrieve collection_items l p stations <> Raise (ValueError msg)).
Proof.
  rewrite retrieve_loops_eq. intros [= <- <-] Hempty.
  pose proof (proj1 (empty_mapping_unusable _ _) Hempty) as Hall.
  pose proof (proj2 (filter_usable_nil _ _) Hall) as Hnil.
  rewrite retrieve_eq, Hnil. done.
Qed.

Lemma retrieve_all_excluded_witness :
  retrieve scenario_items EN chilliwack ["Y"] = Raise (NameError "num_months") /\
  retrieve scenario_items FR chilliwack ["Y"] = Raise (NameError "num_months").
Proof.
  assert (retrieve_loops scenario_items ["Y"]
          = Ok ([], loops_state scenario_items ["Y"])) as Hrun
    by apply retrieve_loops_eq.
  assert (hydrometric_data (loops_state scenario_items ["Y"]) = ∅) as Hempty
    by (vm_compute; reflexivity).
  split.
  - exact (proj1 (retrieve_all_excluded scenario_items EN chilliwack
                    ["Y"] [] _ Hrun Hempty)).
  - exact (proj1 (retrieve_all_excluded scenario_items FR chilliwack
                    ["Y"] [] _ Hrun Hempty)).
Defined.

(** * The selection cells *)

Section SelectorFacts.

Context `{RT : Runtime}.

(** The loop keeps, in order, the numbers of the features whose
    reprojected geometry intersects the buffer. *)
Lemma selection_loop_filter (transform : Transformation) (point_buffer : Geometry)
    (layer : list station_feature) :
  selection_loop transform point_buffer layer =
  map feat_STATION_NUMBER
    (filter (fun feature =>
               Intersects (Transform transform (geometry feature)) point_buffer
               = true) layer).
Proof.
  unfold selection_loop.
  enough (forall acc,
    foldl (fun stations feature =>
             if Intersects (Transform transform (geometry feature)) point_buffer
             then stations ++ [feat_STATION_NUMBER feature] else stations)
          acc layer =
    acc ++ map feat_STATION_NUMBER
             (filter (fun feature =>
                 Intersects (Transform transform (geometry feature)) point_buffer
                 = true) layer)) as Hgen by apply (Hgen []).
  induction layer as [|f layer IH]; intros acc.
  - by rewrite app_nil_r.
  - cbn [foldl]. rewrite IH, filter_cons.
    destruct (Intersects _ _) eqn:Hi.
    + rewrite decide_True by done. by rewrite <- app_assoc.
    + rewrite decide_False by done. reflexivity.
Qed.

Lemma selection_loop_elem_of (transform : Transformation) (point_buffer : Geometry)
    (layer : list station_feature) (station : string) :
  station ∈ selection_loop transform point_buffer layer <->
  exists feature,
    feature ∈ layer /\ feat_STATION_NUMBER feature = station /\
    Intersects (Transform transform (geometry feature)) point_buffer = true.
Proof.
  rewrite selection_loop_filter. unfold fmap.
  change (map feat_STATION_NUMBER) with (fmap (M := list) feat_STATION_NUMBER).
  rewrite list_elem_of_fmap. split.
  - intros (f & -> & [Hi Hin]%list_elem_of_filter). by exists f.
  - intros (f & Hin & <- & Hi). exists f. split; [done|].
    by apply list_elem_of_filter.
Qed.

Lemma buffer_field (p : params) :
  fstring_field p "buffer" = Ok (pretty (buffer p)).
Proof. reflexivity. Qed.

Lemma msg_none_in_buffer_Ok (l : lang) (p : params) :
  exists msg, msg_none_in_buffer l p = Ok msg /\ msg <> msg_no_stations l.
Proof.
  destruct l; unfold msg_none_in_buffer; rewrite buffer_field;
    (eexists; split; [reflexivity|]); simpl; discriminate.
Qed.

Lemma input_SRS_resolved (sd : station_collection) (wkt code : string) (n : Z) :
  sc_spatial_ref sd = Some wkt ->
  authority_code wkt = Some (Some code) ->
  int_literal code = Some n ->
  input_SRS sd = Ok (ImportFromEPSG n).
Proof.
  intros Hsr Hac Hn. unfold input_SRS. rewrite Hsr. simpl.
  rewrite Hac. simpl. by rewrite Hn.
Qed.

End SelectorFacts.

Section SelectorClaims.

Context `{RT : Runtime}.

Lemma select_stations_resolved (l : lang) (p : params) (sd : station_collection)
    (wkt code : string) (n : Z) :
  sc_spatial_ref sd = Some wkt ->
  authority_code wkt = Some (Some code) ->
  int_literal code = Some n ->
  select_stations l p sd =
  match sc_features sd with
  | Some (_ :: _) =>
      match selected p n sd with
      | [] => msg ← msg_none_in_buffer l p; Raise (ValueError msg)
      | s :: kept => Ok (s :: kept)
      end
  | _ => Raise (ValueError (msg_no_stations l))
  end.
Proof.
  intros Hsr Hac Hn. unfold select_stations, verify_retrieved, selected.
  destruct (sc_features sd) as [[|f fs]|]; try reflexivity.
  simpl. rewrite (input_SRS_resolved sd wkt code n) by done.
  rewrite bind_Ok. cbn [default].
  by destruct (selection_loop _ _ (f :: fs)).
Qed.

(** C5, as the cells behave.  An empty collection gets the "no stations
    were found" error, whatever the reference system of the layer.  For
    a collection whose reference system resolves to an EPSG code, the
    selection fails exactly when nothing would be selected, with the "no
    stations within the buffer" error when the collection has features
    and the loop keeps none of them; otherwise it returns the non-empty
    list the loop kept; every failure is a [ValueError] and the two
    messages differ.  With a station in the collection and a reference
    system that is missing or has no authority code, the cells fail
    before the selection, and not with a [ValueError]. *)
Theorem selector_raises_iff_empty (l : lang) (p : params)
    (sd : station_collection) :
  ((sc_features sd = None \/ sc_features sd = Some []) ->
     select_stations l p sd = Raise (ValueError (msg_no_stations l))) /\
  (forall (wkt code : string) (n : Z),
     sc_spatial_ref sd = Some wkt ->
     authority_code wkt = Some (Some code) ->
     int_literal code = Some n ->
     (forall f fs, sc_features sd = Some (f :: fs) -> selected p n sd = [] ->
        exists msg, msg_none_in_buffer l p = Ok msg /\
                    msg <> msg_no_stations l /\
                    select_stations l p sd = Raise (ValueError msg)) /\
     (selected p n sd <> [] ->
        select_stations l p sd = Ok (selected p n sd)) /\
     ((exists e, select_stations l p sd = Raise e) <-> selected p n sd = []) /\
     (forall e, select_stations l p sd = Raise e ->
        exists msg, e = ValueError msg)) /\
  (forall f fs, sc_features sd = Some (f :: fs) ->
     (sc_spatial_ref sd = None \/
      exists wkt, sc_spatial_ref sd = Some wkt /\
                  authority_code wkt = Some None) ->
     exists e, select_stations l p sd = Raise e /\
               forall msg, e <> ValueError msg).
Proof.
  split; [|split].
  - unfold select_stations, verify_retrieved. by intros [-> | ->].
  - intros wkt code n Hsr Hac Hn.
    pose proof (select_stations_resolved l p sd wkt code n Hsr Hac Hn) as Hsel.
    destruct (msg_none_in_buffer_Ok l p) as (msg & Hmsg & Hdiff).
    assert (sc_features sd = None \/ sc_features sd = Some [] ->
            selected p n sd = []) as Hempty.
    { unfold selected. by intros [-> | ->]. }
    split; [|split; [|split]].
    + intros f fs Hf Hnone. exists msg. split; [done|]. split; [done|].
      by rewrite Hsel, Hf, Hnone, Hmsg.
    + intros Hkept. rewrite Hsel.
      destruct (sc_features sd) as [[|f fs]|] eqn:Hf;
        [by destruct Hkept; apply Hempty; right
        | | by destruct Hkept; apply Hempty; left].
      by destruct (selected p n sd).
    + rewrite Hsel. destruct (sc_features sd) as [[|f fs]|] eqn:Hf.
      * split; [intros _; apply Hempty; by right | by eexists].
      * destruct (selected p n sd) eqn:Hkept.
        -- split; [done|]. intros _. rewrite Hmsg. by eexists.
        -- split; [by intros [e ?] | done].
      * split; [intros _; apply Hempty; by left | by eexists].
    + intros e. rewrite Hsel.
      destruct (sc_features sd) as [[|f fs]|]; [by intros [= <-]; eexists | |
                                               by intros [= <-]; eexists].
      destruct (selected p n sd); [|done].
      rewrite Hmsg. intros [= <-]. by eexists.
  - intros f fs Hf [Hsr | (wkt & Hsr & Hac)];
      unfold select_stations, verify_retrieved, input_SRS; rewrite Hf, Hsr.
    + cbn [mbind result_bind str_spatial_ref].
      destruct (authority_code "None"); eexists; (split; [reflexivity | done]).
    + cbn [mbind result_bind str_spatial_ref]. rewrite Hac.
      eexists. split; [reflexivity | done].
Qed.


End SelectorClaims.

Lemma selector_raises_iff_empty_witness :
  select_stations (RT := planar) EN origin_100km stations_A_B = Ok ["A"] /\
  select_stations (RT := planar) EN origin_100km no_stations =
    Raise (ValueError (msg_no_stations EN)) /\
  exists e,
    select_stations (RT := planar) EN origin_100km stations_local_SRS = Raise e /\
    forall msg, e <> ValueError msg.
Proof.
  assert (@sc_spatial_ref planar stations_A_B = Some "GEOGCS[WGS 84]") as H1
    by reflexivity.
  assert (@authority_code planar "GEOGCS[WGS 84]" = Some (Some "4326")) as H2
    by reflexivity.
  assert (@int_literal planar "4326" = Some 4326%Z) as H3 by reflexivity.
  split; [|split].
  - destruct (selector_raises_iff_empty (RT := planar) EN origin_100km
                stations_A_B) as (_ & Hresolved & _).
    destruct (Hresolved "GEOGCS[WGS 84]" "4326" 4326%Z H1 H2 H3)
      as (_ & Hkept & _).
    apply Hkept. vm_compute. discriminate.
  - destruct (selector_raises_iff_empty (RT := planar) EN origin_100km
                no_stations) as (Hempty & _).
    apply Hempty. by right.
  - destruct (selector_raises_iff_empty (RT := planar) EN origin_100km
                stations_local_SRS) as (_ & _ & Hunresolved).
    apply (Hunresolved station_A [station_B] eq_refl).
    right. exists "LOCAL_CS[unnamed]". split; reflexivity.
Defined.

(** C5, as the spec states it, fails: with stations A and B on a layer
    whose reference system carries no authority code the cells neither
    raise one of their two errors nor return a selection; they end in
    the [TypeError] of [int(None)].  (Station A lies within the buffer.) *)
Lemma selector_fails_on_nonempty_selection :
  select_stations (RT := planar) EN origin_100km stations_local_SRS =
    Raise TypeError /\
  ~ (exists stations,
       select_stations (RT := planar) EN origin_100km stations_local_SRS =
       Ok stations) /\
  ~ (exists msg,
       select_stations (RT := planar) EN origin_100km stations_local_SRS =
       Raise (ValueError msg)) /\
  selection_loop (RT := planar) (4326, 3347)%Z
    (point_buffer_of (RT := planar) origin_100km (4326, 3347)%Z)
    [station_A; station_B] = ["A"].
Proof.
  split; [reflexivity|].
  split; [|split]; [intros [x Hx]; vm_compute in Hx; discriminate ..|].
  reflexivity.
Qed.



(** ** The scenarios of the spec, run *)

(** Scenario A: A at 10 km and B at 150 km, buffer of 100 km. *)
Example scenario_A :
  select_stations (RT := planar) EN origin_100km stations_A_B = Ok ["A"].
Proof. reflexivity. Qed.

(** A station in the corner of the bounding box of the buffer, at
    about 127 km from the centre, is not selected. *)
Example bounding_box_corner_excluded :
  let corner := @StationFeature planar (Pt 90000 90000) "C" in
  let sd := @StationCollection planar (Some [station_A; corner])
              (Some "GEOGCS[WGS 84]") in
  select_stations (RT := planar) EN origin_100km sd = Ok ["A"].
Proof. reflexivity. Qed.

(** A station on the edge of the buffer is selected. *)
Example buffer_edge_included :
  let edge := @StationFeature planar (Pt 60000 80000) "E" in
  let sd := @StationCollection planar (Some [edge]) (Some "GEOGCS[WGS 84]") in
  select_stations (RT := planar) EN origin_100km sd = Ok ["E"].
Proof. reflexivity. Qed.

(** Scenario B: no candidate at all. *)
Example scenario_B :
  select_stations (RT := planar) EN origin_100km no_stations =
  Raise (ValueError
           "No hydrometric stations were found. Please verify the coordinates.").
Proof. reflexivity. Qed.

(** No station within the buffer: the message carries the buffer size. *)
Example none_within_buffer :
  let sd := @StationCollection planar (Some [station_B]) (Some "GEOGCS[WGS 84]") in
  select_stations (RT := planar) EN origin_100km sd =
  Raise (ValueError
           ("There are no hydrometric stations within 100 km"
            +:+ " of the chosen coordinates. Please verify the coordinates.")).
Proof. reflexivity. Qed.

(** Scenarios C and D together: X is trimmed to its first record, Y is
    set aside, and [stations] keeps X only. *)
Example scenario_C_D :
  exists st,
    retrieve scenario_items EN chilliwack ["X"; "Y"] = Ok (["X"], st) /\
    series <$> hydrometric_data st !! "X" = Some [(d1, Some (12 # 10)%Q)] /\
    hydrometric_data st !! "Y" = None /\
    stations_without_data st = ["Y"].
Proof.
  eexists. rewrite retrieve_eq. split; [reflexivity|].
  split; [|split]; vm_compute; reflexivity.
Qed.

(** A gap between two values stays where it is. *)
Example interior_gap_kept :
  series (stored_frame scenario_items "W") =
  [(d1, Some (3 # 1)%Q); (d2, None); (d3, Some (4 # 1)%Q)].
Proof. reflexivity. Qed.

(** * Further properties of the cells *)

(** ** The trimming loop on any frame *)

Lemma drop_sublist {I R : Type} `{EqDecision I} (labels : list I) (df : Frame I R) :
  drop labels df `sublist_of` df.
Proof. apply sublist_filter. Qed.

Lemma drop_tail1_length (df : Frame nat row) (v : level) :
  iloc_last_LEVEL df = Ok v ->
  length (drop (tail1_index df) df) < length df.
Proof.
  unfold iloc_last_LEVEL, tail1_index.
  destruct (last df) as [[i r]|] eqn:Hl; [|discriminate]. intros _.
  apply last_Some in Hl as [l' ->].
  unfold drop. rewrite filter_app, filter_cons_False, filter_nil, !length_app.
  - pose proof (length_filter (fun ir : nat * row => ir.1 ∉ [i]) l').
    simpl. lia.
  - simpl. intros Hi. apply Hi, list_elem_of_singleton. reflexivity.
Qed.

Lemma trim_loop_length (df df' : Frame nat row) :
  trim_loop df = Ok df' -> length df' <= length df.
Proof.
  remember (length df) as n eqn:Hn. revert df Hn.
  induction n as [n IH] using lt_wf_ind. intros df ->.
  rewrite trim_loop_eq.
  destruct (iloc_last_LEVEL df) as [[v|]|e] eqn:Hv; simpl.
  - by intros [= <-].
  - intros Hloop. pose proof (drop_tail1_length df None Hv) as Hlt.
    specialize (IH _ Hlt _ eq_refl Hloop). lia.
  - discriminate.
Qed.

(** X5. Whatever the labels of the frame, the loop either raises
    [IndexError] or returns rows of the frame, in their order, the last
    of which has a water level; it never returns an empty frame or a
    frame ending with a missing level. *)
Theorem trim_loop_any_frame (df : Frame nat row) :
  match trim_loop df with
  | Ok df' =>
      df' `sublist_of` df /\
      exists i r v, last df' = Some (i, r) /\ LEVEL r = Some v
  | Raise e => e = IndexError
  end.
Proof.
  remember (length df) as n eqn:Hn. revert df Hn.
  induction n as [n IH] using lt_wf_ind. intros df ->.
  rewrite trim_loop_eq.
  destruct (iloc_last_LEVEL df) as [[v|]|e] eqn:Hv; simpl.
  - split; [done|]. unfold iloc_last_LEVEL in Hv.
    destruct (last df) as [[i r]|]; [|discriminate].
    injection Hv as Hr. by exists i, r, v.
  - specialize (IH _ (drop_tail1_length df None Hv) _ eq_refl).
    destruct (trim_loop (drop (tail1_index df) df)) as [df'|e]; [|done].
    destruct IH as [Hsub Hlast]. split; [|done].
    etrans; [exact Hsub | apply drop_sublist].
  - unfold iloc_last_LEVEL in Hv.
    destruct (last df) as [[? ?]|]; congruence.
Qed.

(** X6. The loop returns the frame unchanged exactly when the last row
    of the frame has a water level. *)
Theorem trim_loop_unchanged_iff (df : Frame nat row) :
  trim_loop df = Ok df <-> exists v, iloc_last_LEVEL df = Ok (Some v).
Proof.
  rewrite trim_loop_eq. split.
  - destruct (iloc_last_LEVEL df) as [[v|]|e] eqn:Hv; [by exists v | | discriminate].
    simpl. intros Hloop. exfalso.
    apply trim_loop_length in Hloop.
    pose proof (drop_tail1_length df None Hv). lia.
  - intros [v ->]. reflexivity.
Qed.

(** ** Frames and records *)

Lemma set_index_DATE_rows {I : Type} (df : Frame I row) :
  set_index_DATE df =
  map (fun r => (DATE r,
                 {| obs_STATION_NUMBER := STATION_NUMBER r;
                    obs_STATION_NAME := STATION_NAME r;
                    obs_LEVEL := LEVEL r;
                    obs_LATITUDE := LATITUDE r;
                    obs_LONGITUDE := LONGITUDE r |})) df.*2.
Proof.
  unfold set_index_DATE. induction df as [|ir df IH]; [reflexivity|].
  simpl. by rewrite IH.
Qed.

Lemma stored_frame_features (collection_items : string -> list hydro_feature)
    (station : string) :
  stored_frame collection_items station =
  map feature_entry (trim_trailing feature_missing (collection_items station)).
Proof.
  unfold stored_frame, historical_data_df.
  rewrite set_index_DATE_rows, trim_trailing_rows, pd_DataFrame_rows.
  rewrite (trim_trailing_map historical_data_format).
  rewrite map_map. reflexivity.
Qed.

Lemma usable_features (collection_items : string -> list hydro_feature)
    (station : string) :
  usable collection_items station =
  negb (forallb feature_missing (collection_items station)).
Proof.
  rewrite usable_records. unfold records. f_equal.
  induction (collection_items station) as [|el els IH]; [reflexivity|].
  simpl. by rewrite IH.
Qed.

Section TrimLookup.

Context {A : Type} (missing : A -> bool).

Lemma trim_trailing_length (l : list A) :
  length (trim_trailing missing l) <= length l.
Proof. apply prefix_length, trim_trailing_prefix. Qed.

(** Nothing at or before a present value is dropped. *)
Lemma trim_trailing_lookup (l : list A) (i j : nat) (x : A) :
  i <= j -> l !! j = Some x -> missing x = false ->
  trim_trailing missing l !! i = l !! i.
Proof.
  intros Hij Hj Hx.
  destruct (trim_trailing_split missing l) as (gap & Hl & Hgap).
  assert (j < length (trim_trailing missing l)) as Hlen.
  { destruct (decide (j < length (trim_trailing missing l))) as [|Hge]; [done|].
    exfalso. rewrite Hl, lookup_app_r in Hj by lia.
    apply list_elem_of_lookup_2 in Hj.
    rewrite forallb_forall in Hgap.
    apply list_elem_of_In, Hgap in Hj. congruence. }
  rewrite Hl at 2. by rewrite lookup_app_l by lia.
Qed.

(** What is dropped has no value. *)
Lemma trim_trailing_dropped (l : list A) (j : nat) (x : A) :
  length (trim_trailing missing l) <= j -> l !! j = Some x -> missing x = true.
Proof.
  intros Hlen Hj.
  destruct (trim_trailing_split missing l) as (gap & Hl & Hgap).
  rewrite Hl, lookup_app_r in Hj by lia.
  apply list_elem_of_lookup_2 in Hj.
  rewrite forallb_forall in Hgap. by apply list_elem_of_In, Hgap in Hj.
Qed.

Lemma trim_trailing_lookup_Some (l : list A) (i : nat) (x : A) :
  trim_trailing missing l !! i = Some x -> l !! i = Some x.
Proof.
  intros Hi. destruct (trim_trailing_split missing l) as (gap & Hl & _).
  rewrite Hl. by apply lookup_app_l_Some.
Qed.

End TrimLookup.

(** ** What the retrieval cell leaves behind *)

Lemma usable_ext (ci ci' : string -> list hydro_feature) (s : string) :
  ci s = ci' s ->
  usable ci s = usable ci' s /\ stored_frame ci s = stored_frame ci' s.
Proof.
  intros Heq. unfold usable, stored_frame, historical_data_df.
  by rewrite Heq.
Qed.

Lemma usable_present_value (collection_items : string -> list hydro_feature)
    (s : string) :
  usable collection_items s = true <->
  exists d v, (d, Some v) ∈ records collection_items s.
Proof.
  rewrite usable_records, negb_true_iff. split.
  - intros Hall.
    induction (records collection_items s) as [|[d [v|]] l IH]; [done| |].
    + exists d, v. by apply elem_of_cons; left.
    + destruct IH as (d' & v' & Hin); [done|].
      exists d', v'. by apply elem_of_cons; right.
  - intros (d & v & Hin).
    destruct (forallb value_missing (records collection_items s)) eqn:Hall;
      [|done].
    rewrite forallb_forall in Hall.
    apply list_elem_of_In, Hall in Hin. done.
Qed.

(** X7. After the two loops, [stations] holds exactly the stations that
    have a frame, in the order they had; the stations removed are those
    of [stations_without_data], and both lists together are the original
    list, station for station. *)
Theorem kept_stations_are_keys
    (collection_items : string -> list hydro_feature)
    (stations kept : list string) (st : hydro_state) :
  retrieve_loops collection_items stations = Ok (kept, st) ->
  (forall s, s ∈ kept <-> is_Some (hydrometric_data st !! s)) /\
  dom (hydrometric_data st) = list_to_set kept /\
  kept `sublist_of` stations /\
  stations_without_data st `sublist_of` stations /\
  kept ++ stations_without_data st ≡ₚ stations.
Proof.
  rewrite retrieve_loops_eq. intros [= <- <-].
  assert (forall s, s ∈ filter (fun s => usable collection_items s = true) stations
                    <-> is_Some (hydrometric_data
                                   (loops_state collection_items stations) !! s))
    as Hkeys.
  { intros s. rewrite list_elem_of_filter, loops_state_lookup.
    destruct (decide (s ∈ stations /\ usable collection_items s = true))
      as [[? ?]|Hn].
    - split; [by eexists | done].
    - split; [intros [? ?]; by destruct Hn | by intros [? ?]]. }
  split; [exact Hkeys|]. split; [|split; [|split]].
  - apply set_eq. intros s.
    by rewrite elem_of_dom, elem_of_list_to_set, Hkeys.
  - apply sublist_filter.
  - rewrite loops_state_without_data. apply sublist_filter.
  - rewrite loops_state_without_data.
    rewrite (list_filter_iff (fun s => usable collection_items s = false)
               (fun s => ~ usable collection_items s = true)).
    + apply filter_app_complement.
    + intros s. by destruct (usable collection_items s).
Qed.

Lemma kept_stations_are_keys_witness :
  exists st,
    retrieve_loops scenario_items ["Y"; "X"; "Z"; "W"] = Ok (["X"; "W"], st) /\
    dom (hydrometric_data st) = list_to_set ["X"; "W"] /\
    ["X"; "W"] ++ stations_without_data st ≡ₚ ["Y"; "X"; "Z"; "W"].
Proof.
  assert (retrieve_loops scenario_items ["Y"; "X"; "Z"; "W"]
          = Ok (["X"; "W"], loops_state scenario_items ["Y"; "X"; "Z"; "W"]))
    as Hrun by apply retrieve_loops_eq.
  destruct (kept_stations_are_keys scenario_items _ _ _ Hrun)
    as (_ & Hdom & _ & _ & Hperm).
  eexists. split; [exact Hrun|]. split; [exact Hdom | exact Hperm].
Defined.

(** X8. The frame of a station, and whether the station is kept, depend
    on the records of that station only: not on the other stations of
    the list, nor on their records, nor on the position in the list. *)
Theorem frames_independent
    (ci ci' : string -> list hydro_feature)
    (stations stations' kept kept' : list string) (st st' : hydro_state)
    (s : string) :
  retrieve_loops ci stations = Ok (kept, st) ->
  retrieve_loops ci' stations' = Ok (kept', st') ->
  s ∈ stations -> s ∈ stations' -> ci s = ci' s ->
  hydrometric_data st !! s = hydrometric_data st' !! s /\
  (s ∈ kept <-> s ∈ kept') /\
  (s ∈ stations_without_data st <-> s ∈ stations_without_data st').
Proof.
  rewrite !retrieve_loops_eq. intros [= <- <-] [= <- <-] Hin Hin' Heq.
  destruct (usable_ext ci ci' s Heq) as [Hu Hf].
  rewrite !loops_state_lookup, !list_elem_of_filter, !elem_of_without_data.
  rewrite <- Hu, <- Hf. split; [|tauto].
  destruct (usable ci s).
  - by rewrite !decide_True.
  - by rewrite !decide_False by (intros [_ ?]; done).
Qed.

Lemma frames_independent_witness :
  exists kept st kept' st',
    retrieve_loops scenario_items ["X"; "Y"] = Ok (kept, st) /\
    retrieve_loops (fun s => if decide (s = "X") then scenario_items "X" else [])
      ["W"; "X"] = Ok (kept', st') /\
    hydrometric_data st !! "X" = hydrometric_data st' !! "X".
Proof.
  eexists _, _, _, _.
  split; [apply retrieve_loops_eq|]. split; [apply retrieve_loops_eq|].
  refine (proj1 (frames_independent scenario_items
                   (fun s => if decide (s = "X") then scenario_items "X" else [])
                   ["X"; "Y"] ["W"; "X"] _ _ _ _ "X"
                   (retrieve_loops_eq _ _) (retrieve_loops_eq _ _) _ _ _)).
  - apply elem_of_cons. by left.
  - apply elem_of_cons. right. apply elem_of_cons. by left.
  - reflexivity.
Defined.

(** X9. The rows of a stored frame are the first records the API
    returned for the station, one row per record and in the same order:
    the date is the label, the level and the names are those of the
    record, the latitude is the second coordinate and the longitude the
    first. *)
Theorem stored_rows_are_records
    (collection_items : string -> list hydro_feature)
    (stations kept : list string) (st : hydro_state)
    (s : string) (df : Frame date obs) :
  retrieve_loops collection_items stations = Ok (kept, st) ->
  hydrometric_data st !! s = Some df ->
  length df <= length (collection_items s) /\
  forall i d o, df !! i = Some (d, o) ->
    exists el, collection_items s !! i = Some el /\
      d = prop_DATE el /\
      obs_STATION_NUMBER o = prop_STATION_NUMBER el /\
      obs_STATION_NAME o = prop_STATION_NAME el /\
      obs_LEVEL o = prop_LEVEL el /\
      obs_LATITUDE o = (coordinates el).2 /\
      obs_LONGITUDE o = (coordinates el).1.
Proof.
  rewrite retrieve_loops_eq. intros [= <- <-].
  intros (_ & _ & ->)%lookup_Some_usable.
  rewrite stored_frame_features. split.
  - rewrite length_map. apply trim_trailing_length.
  - intros i d o Hi.
    change (map feature_entry) with (fmap (M := list) feature_entry) in Hi.
    apply list_lookup_fmap_Some in Hi as (el & Hentry & Hel).
    exists el. split; [by eapply trim_trailing_lookup_Some|].
    unfold feature_entry in Hentry. by injection Hentry as -> ->.
Qed.

Lemma stored_rows_are_records_witness :
  exists df,
    hydrometric_data (loops_state scenario_items ["W"]) !! "W" = Some df /\
    length df <= length (scenario_items "W").
Proof.
  assert (hydrometric_data (loops_state scenario_items ["W"]) !! "W"
          = Some (stored_frame scenario_items "W")) as HW
    by (vm_compute; reflexivity).
  eexists. split; [exact HW|].
  exact (proj1 (stored_rows_are_records scenario_items ["W"] _ _ "W" _
                  (retrieve_loops_eq _ _) HW)).
Defined.

(** X10. In a stored frame every record up to the last one that has a
    value is kept as it is, gaps before a value included, and every
    record dropped has no value. *)
Theorem records_kept_up_to_last_value
    (collection_items : string -> list hydro_feature)
    (stations kept : list string) (st : hydro_state)
    (s : string) (df : Frame date obs) :
  retrieve_loops collection_items stations = Ok (kept, st) ->
  hydrometric_data st !! s = Some df ->
  (forall i j d v, i <= j ->
     records collection_items s !! j = Some (d, Some v) ->
     series df !! i = records collection_items s !! i) /\
  (forall j dv, length (series df) <= j ->
     records collection_items s !! j = Some dv -> dv.2 = None).
Proof.
  rewrite retrieve_loops_eq. intros [= <- <-].
  intros (_ & _ & ->)%lookup_Some_usable.
  rewrite series_stored_frame. split.
  - intros i j d v Hij Hj.
    by apply (trim_trailing_lookup value_missing _ i j (d, Some v)).
  - intros j [d [v|]] Hlen Hj; [|done].
    by apply (trim_trailing_dropped value_missing) in Hj.
Qed.

Lemma records_kept_up_to_last_value_witness :
  series (stored_frame scenario_items "W") !! 1 = records scenario_items "W" !! 1.
Proof.
  assert (hydrometric_data (loops_state scenario_items ["W"]) !! "W"
          = Some (stored_frame scenario_items "W")) as HW
    by (vm_compute; reflexivity).
  refine (proj1 (records_kept_up_to_last_value scenario_items ["W"] _ _ "W" _
                   (retrieve_loops_eq _ _) HW) 1 2 d3 (4 # 1)%Q _ _).
  - repeat constructor.
  - reflexivity.
Defined.

(** X11. Whenever the retrieval cell succeeds, it returns what its two
    loops left, the list [stations] it leaves is not empty, and every
    station left in that list is one of the listed stations and has a
    record with a value. *)
Theorem retrieve_success_has_value
    (collection_items : string -> list hydro_feature) (l : lang) (p : params)
    (stations : list string) (out : list string * hydro_state) :
  retrieve collection_items l p stations = Ok out ->
  retrieve_loops collection_items stations = Ok out /\
  out.1 <> [] /\
  (forall s, s ∈ out.1 ->
     s ∈ stations /\ exists d v, (d, Some v) ∈ records collection_items s) /\
  (exists s d v, s ∈ stations /\ (d, Some v) ∈ records collection_items s).
Proof.
  rewrite retrieve_eq, retrieve_loops_eq.
  destruct (filter (fun s => usable collection_items s = true) stations)
    as [|s0 kept] eqn:Hkept; [discriminate|].
  intros [= <-]. split; [done|]. split; [done|].
  assert (forall s, s ∈ s0 :: kept ->
            s ∈ stations /\
            exists d v, (d, Some v) ∈ records collection_items s) as Hall.
  { intros s Hs. rewrite <- Hkept in Hs.
    apply list_elem_of_filter in Hs as [Hu Hin]. split; [done|].
    by apply usable_present_value. }
  split; [exact Hall|].
  destruct (Hall s0) as (Hin & d & v & Hv); [by apply elem_of_cons; left|].
  by exists s0, d, v.
Qed.

Lemma retrieve_success_has_value_witness :
  exists s d v, s ∈ ["Y"; "X"] /\ (d, Some v) ∈ records scenario_items s.
Proof.
  assert (retrieve scenario_items EN chilliwack ["Y"; "X"]
          = Ok (["X"], loops_state scenario_items ["Y"; "X"])) as Hrun
    by (rewrite retrieve_eq; reflexivity).
  exact (proj2 (proj2 (proj2
           (retrieve_success_has_value scenario_items EN chilliwack _ _ Hrun)))).
Defined.

(** ** The selection cells, once more *)

Section SelectorMore.

Context `{RT : Runtime}.

Lemma select_stations_Ok_inv (l : lang) (p : params) (sd : station_collection)
    (stations : list string) :
  select_stations l p sd = Ok stations ->
  exists f fs wkt code n,
    sc_features sd = Some (f :: fs) /\
    sc_spatial_ref sd = Some wkt /\
    authority_code wkt = Some (Some code) /\
    int_literal code = Some n /\
    stations = selected p n sd /\
    stations <> [].
Proof.
  unfold select_stations, verify_retrieved, input_SRS, py_int, selected.
  destruct (sc_features sd) as [[|f fs]|]; try discriminate.
  destruct (sc_spatial_ref sd) as [wkt|]; simpl.
  - destruct (authority_code wkt) as [[code|]|] eqn:Hac; simpl; try discriminate.
    destruct (int_literal code) as [n|] eqn:Hn; simpl; try discriminate.
    destruct (selection_loop _ _ (f :: fs)) as [|s kept] eqn:Hsel.
    + destruct (msg_none_in_buffer l p); discriminate.
    + intros [= <-]. exists f, fs, wkt, code, n. cbn [default].
      rewrite Hsel. done.
  - destruct (authority_code "None") as [c|]; discriminate.
Qed.

(** X1. When the selection cells return a list, a station number is in
    it exactly when the layer has a feature with that number whose
    reprojected geometry intersects the buffer of [buffer * 1000]
    around the reprojected point; the reprojection goes from the EPSG
    code of the layer to the chosen projection. *)
Theorem selection_membership (l : lang) (p : params) (sd : station_collection)
    (stations : list string) :
  select_stations l p sd = Ok stations ->
  exists layer wkt code n,
    sc_features sd = Some layer /\
    sc_spatial_ref sd = Some wkt /\
    authority_code wkt = Some (Some code) /\
    int_literal code = Some n /\
    forall station,
      station ∈ stations <->
      exists feature,
        feature ∈ layer /\ feat_STATION_NUMBER feature = station /\
        let transform :=
          CoordinateTransformation (ImportFromEPSG n)
            (ImportFromEPSG (projection p)) in
        Intersects (Transform transform (geometry feature))
          (Buffer (Transform transform (Point (long p) (lat p)))
             (buffer p * 1000)) = true.
Proof.
  intros (f & fs & wkt & code & n & Hf & Hsr & Hac & Hn & -> & _)%select_stations_Ok_inv.
  exists (f :: fs), wkt, code, n. repeat (split; [done|]).
  intros station. unfold selected. rewrite Hf. cbn [default].
  apply selection_loop_elem_of.
Qed.

(** X2. The selection cells return a list exactly when the collection
    has a feature, the reference system of the layer has an authority
    code that reads as an integer and the loop keeps a station; the list
    returned is the one the loop kept. *)
Theorem select_stations_Ok_iff (l : lang) (p : params) (sd : station_collection)
    (stations : list string) :
  select_stations l p sd = Ok stations <->
  exists f fs wkt code n,
    sc_features sd = Some (f :: fs) /\
    sc_spatial_ref sd = Some wkt /\
    authority_code wkt = Some (Some code) /\
    int_literal code = Some n /\
    stations = selected p n sd /\
    stations <> [].
Proof.
  split; [apply select_stations_Ok_inv|].
  intros (f & fs & wkt & code & n & Hf & Hsr & Hac & Hn & -> & Hne).
  rewrite (select_stations_resolved l p sd wkt code n Hsr Hac Hn), Hf.
  by destruct (selected p n sd).
Qed.

(** X3. The selection loop goes through the layer in order: the stations
    kept from two layers in a row are those kept from the first followed
    by those kept from the second, and the list kept is a sublist of the
    station numbers of the layer (one entry per intersecting feature). *)
Theorem selection_loop_in_order (transform : Transformation)
    (point_buffer : Geometry) (layer1 layer2 : list station_feature) :
  selection_loop transform point_buffer (layer1 ++ layer2) =
    selection_loop transform point_buffer layer1
    ++ selection_loop transform point_buffer layer2 /\
  selection_loop transform point_buffer layer1
    `sublist_of` map feat_STATION_NUMBER layer1 /\
  length (selection_loop transform point_buffer layer1) <= length layer1.
Proof.
  rewrite !selection_loop_filter. split; [|split].
  - by rewrite filter_app, map_app.
  - apply (fmap_sublist feat_STATION_NUMBER), sublist_filter.
  - rewrite length_map. apply length_filter.
Qed.

(** X4. The selection cells never end in a [NameError] or an
    [IndexError]: a failure is a [ValueError], the [TypeError] of
    [int(None)], the [AttributeError] of a missing reference system or
    an error of the bindings. *)
Theorem select_stations_failures (l : lang) (p : params)
    (sd : station_collection) (e : exn) :
  select_stations l p sd = Raise e ->
  (exists msg, e = ValueError msg) \/ e = TypeError \/ e = AttributeError \/
  e = LibraryError.
Proof.
  unfold select_stations, verify_retrieved, input_SRS, py_int.
  destruct (sc_features sd) as [[|f fs]|];
    [intros [= <-]; left; by eexists | | intros [= <-]; left; by eexists].
  destruct (sc_spatial_ref sd) as [wkt|]; simpl.
  - destruct (authority_code wkt) as [[code|]|]; simpl;
      [ | intros [= <-]; auto | intros [= <-]; auto].
    destruct (int_literal code) as [n|]; simpl;
      [| intros [= <-]; left; by eexists].
    destruct (selection_loop _ _ (f :: fs)); [|discriminate].
    destruct (msg_none_in_buffer_Ok l p) as (msg & -> & _). simpl.
    intros [= <-]. left. by eexists.
  - destruct (authority_code "None") as [c|]; simpl; intros [= <-]; auto.
Qed.

End SelectorMore.

Lemma selection_membership_witness :
  "A" ∈ ["A"] /\
  exists feature : @station_feature planar,
    feature ∈ [station_A; station_B] /\ feat_STATION_NUMBER feature = "A".
Proof.
  destruct (selection_membership (RT := planar) EN origin_100km stations_A_B
              ["A"] eq_refl)
    as (layer & wkt & code & n & Hf & _ & _ & _ & Hmem).
  injection Hf as <-.
  assert ("A" ∈ ["A"]) as HA by (apply elem_of_cons; by left).
  split; [exact HA|].
  destruct (proj1 (Hmem "A") HA) as (feature & Hin & Hnum & _).
  by exists feature.
Defined.

Lemma select_stations_failures_witness :
  (exists msg, AttributeError = ValueError msg) \/ AttributeError = TypeError \/
  AttributeError = AttributeError \/ AttributeError = LibraryError.
Proof.
  exact (select_stations_failures (RT := planar) EN origin_100km
           stations_without_SRS AttributeError eq_refl).
Defined.

(** ** The display cells *)

Lemma trim_trailing_head {A : Type} (missing : A -> bool) (x : A) (l : list A) :
  trim_trailing missing (x :: l) <> [] ->
  exists t, trim_trailing missing (x :: l) = x :: t.
Proof.
  simpl. destruct (trim_trailing missing l) as [|y t].
  - destruct (missing x); [done | by exists []].
  - by exists (y :: t).
Qed.

(** The frame of a kept station: it starts with the first record and
    ends with the last record that has a value. *)
Lemma kept_frame_shape (collection_items : string -> list hydro_feature)
    (stations kept : list string) (st : hydro_state) (s : string) :
  retrieve_loops collection_items stations = Ok (kept, st) ->
  s ∈ kept ->
  exists el els t x gap,
    collection_items s = el :: els /\
    collection_items s = t ++ x :: gap /\
    feature_missing x = false /\
    forallb feature_missing gap = true /\
    head (t ++ [x]) = Some el /\
    hydrometric_data st !! s = Some (map feature_entry (t ++ [x])).
Proof.
  rewrite retrieve_loops_eq. intros [= <- <-].
  intros [Hu Hin]%list_elem_of_filter.
  rewrite loops_state_lookup, decide_True by done.
  rewrite stored_frame_features.
  rewrite usable_features, negb_true_iff in Hu.
  destruct (trim_trailing_split feature_missing (collection_items s))
    as (gap & Hsplit & Hgap).
  destruct (last (trim_trailing feature_missing (collection_items s)))
    as [x|] eqn:Hlast.
  - apply trim_trailing_last in Hlast as Hx.
    apply last_Some in Hlast as [t Ht].
    destruct (collection_items s) as [|el els] eqn:Hci; [discriminate|].
    destruct (trim_trailing_head feature_missing el els) as [t' Ht'];
      [by rewrite Ht; destruct t|].
    exists el, els, t, x, gap. repeat split; try done.
    + by rewrite Hsplit, Ht, <- app_assoc.
    + by rewrite <- Ht, Ht'.
    + by rewrite Ht.
  - apply last_None, trim_trailing_nil in Hlast. congruence.
Qed.

Lemma retrieve_Ok_loops (collection_items : string -> list hydro_feature)
    (l : lang) (p : params) (stations kept : list string) (st : hydro_state) :
  retrieve collection_items l p stations = Ok (kept, st) ->
  retrieve_loops collection_items stations = Ok (kept, st) /\ kept <> [].
Proof.
  rewrite retrieve_eq, retrieve_loops_eq.
  destruct (filter _ stations); [discriminate|]. by intros [= <- <-].
Qed.

Lemma getitem_kept (collection_items : string -> list hydro_feature)
    (stations kept : list string) (st : hydro_state) (s : string) :
  retrieve_loops collection_items stations = Ok (kept, st) ->
  s ∉ kept ->
  getitem (hydrometric_data st) s = Fails (KeyError s).
Proof.
  rewrite retrieve_loops_eq. intros [= <- <-] Hnot.
  unfold getitem. rewrite loops_state_lookup.
  rewrite decide_False; [done|].
  intros [? ?]. apply Hnot. by apply list_elem_of_filter.
Qed.

(** X12. Once the retrieval cell has succeeded, the plot of every station
    left in [stations] can be drawn: its title carries the name of the
    first record of the station and the station number, and its points
    are the records of the station without the trailing gaps. *)
Theorem choose_station_kept
    (collection_items : string -> list hydro_feature) (l : lang) (p : params)
    (stations kept : list string) (st : hydro_state) (station : string) :
  retrieve collection_items l p stations = Ok (kept, st) ->
  station ∈ kept ->
  exists el els fig,
    collection_items station = el :: els /\
    choose_station l (hydrometric_data st) station = Shown fig /\
    fig_title fig = station_heading l (prop_STATION_NAME el) station /\
    fig_points fig =
      trim_trailing value_missing (records collection_items station).
Proof.
  intros [Hrun _]%retrieve_Ok_loops Hin.
  destruct (kept_frame_shape _ _ _ _ _ Hrun Hin)
    as (el & els & t & x & gap & Hci & _ & _ & _ & Hhead & Hdf).
  assert (hydrometric_data st !! station
          = Some (stored_frame collection_items station)) as Hstored.
  { rewrite retrieve_loops_eq in Hrun. injection Hrun as <- <-.
    apply list_elem_of_filter in Hin as [? ?].
    by rewrite loops_state_lookup, decide_True. }
  exists el, els. unfold choose_station, getitem. rewrite Hdf.
  rewrite Hdf in Hstored. injection Hstored as Hstored.
  rewrite <- series_stored_frame, <- Hstored.
  destruct (t ++ [x]) as [|el' rest] eqn:Htx; [discriminate|].
  injection Hhead as ->. simpl. eexists. split; [done|].
  split; [reflexivity|]. split; reflexivity.
Qed.

Lemma choose_station_kept_witness :
  exists fig,
    choose_station EN
      (hydrometric_data (loops_state scenario_items ["X"; "Y"])) "X" = Shown fig /\
    fig_title fig = "Water levels at station Station X (X)" /\
    fig_points fig = [(d1, Some (12 # 10)%Q)].
Proof.
  assert (retrieve scenario_items EN chilliwack ["X"; "Y"]
          = Ok (["X"], loops_state scenario_items ["X"; "Y"])) as Hrun
    by (rewrite retrieve_eq; reflexivity).
  assert ("X" ∈ ["X"]) as Hin by (apply elem_of_cons; by left).
  destruct (choose_station_kept scenario_items EN chilliwack _ _ _ "X" Hrun Hin)
    as (el & els & fig & Hci & Hfig & Htitle & Hpoints).
  exists fig. split; [exact Hfig|].
  injection Hci as <- _. split; [exact Htitle | exact Hpoints].
Defined.

(** X13. For a station that is not left in [stations], one set aside for
    instance, the plot and the table both fail with a [KeyError] on the
    station: the dictionary holds no frame for it. *)
Theorem choose_station_not_kept
    (collection_items : string -> list hydro_feature) (l : lang)
    (stations kept : list string) (st : hydro_state) (station : string) :
  retrieve_loops collection_items stations = Ok (kept, st) ->
  station ∉ kept ->
  choose_station l (hydrometric_data st) station = Fails (KeyError station) /\
  choose_station_table l (hydrometric_data st) station
    = Fails (KeyError station).
Proof.
  intros Hrun Hnot. unfold choose_station, choose_station_table.
  by rewrite (getitem_kept _ _ _ _ _ Hrun Hnot).
Qed.

Lemma choose_station_not_kept_witness :
  choose_station EN
    (hydrometric_data (loops_state scenario_items ["X"; "Y"])) "Y"
  = Fails (KeyError "Y").
Proof.
  refine (proj1 (choose_station_not_kept scenario_items EN ["X"; "Y"] ["X"] _ "Y"
                   (retrieve_loops_eq _ _) _)).
  intros [Heq|Hin%elem_of_nil]%elem_of_cons; [discriminate | done].
Defined.

(** X14. Whatever the dictionary holds, the table and the plot of a
    station go together: both fail with the same exception, or both
    show the same dated levels, the title of the table being the title
    of the plot inside [<h4>]. *)
Theorem table_matches_plot (l : lang) (hd : gmap string (Frame date obs))
    (station : string) :
  match choose_station l hd station, choose_station_table l hd station with
  | Shown fig, Shown tab =>
      table_rows tab = fig_points fig /\
      table_title tab = "<h4>" +:+ fig_title fig +:+ "</h4>"
  | Fails e1, Fails e2 => e1 = e2
  | _, _ => False
  end.
Proof.
  unfold choose_station, choose_station_table, getitem.
  destruct (hd !! station) as [[|[d o] df]|]; simpl; done.
Qed.

Lemma view_map_Forall2 {A B : Type} (f : A -> view B) (P : A -> B -> Prop)
    (l : list A) :
  (forall x, x ∈ l -> exists y, f x = Shown y /\ P x y) ->
  exists ys, view_map f l = Shown ys /\ Forall2 P l ys.
Proof.
  induction l as [|x l IH]; intros Hf.
  - exists []. split; [reflexivity | constructor].
  - destruct (Hf x) as (y & Hy & HP); [by apply elem_of_cons; left|].
    destruct IH as (ys & Hys & HPs).
    { intros x' Hx'. apply Hf, elem_of_cons. by right. }
    exists (y :: ys). simpl. rewrite Hy. simpl. rewrite Hys. simpl.
    split; [reflexivity | by constructor].
Qed.

Lemma foldl_min_spec (l : list Q) (m : Q) :
  let r := foldl (fun m y => if Qle_bool m y then m else y) m l in
  (r = m \/ r ∈ l) /\ (r <= m)%Q /\ forall y, y ∈ l -> (r <= y)%Q.
Proof.
  revert m. induction l as [|x l IH]; intros m; cbn [foldl].
  - split; [by left|]. split; [apply Qle_refl|]. by intros y ?%elem_of_nil.
  - destruct (IH (if Qle_bool m x then m else x)) as (Hin & Hle & Hall).
    assert ((if Qle_bool m x then m else x) <= m /\
            (if Qle_bool m x then m else x) <= x)%Q as [Hm Hx].
    { destruct (Qle_bool m x) eqn:Hmx.
      - split; [apply Qle_refl | by apply Qle_bool_iff].
      - split; [|apply Qle_refl]. apply Qlt_le_weak, Qnot_le_lt.
        intros Hc. apply Qle_bool_iff in Hc. congruence. }
    split; [|split].
    + destruct Hin as [Hin|Hin].
      * rewrite Hin. destruct (Qle_bool m x); [by left|].
        right. by apply elem_of_cons; left.
      * right. by apply elem_of_cons; right.
    + eapply Qle_trans; eauto.
    + intros y [->|Hy]%elem_of_cons; [eapply Qle_trans; eauto | by apply Hall].
Qed.

Lemma foldl_max_spec (l : list Q) (m : Q) :
  let r := foldl (fun m y => if Qle_bool y m then m else y) m l in
  (r = m \/ r ∈ l) /\ (m <= r)%Q /\ forall y, y ∈ l -> (y <= r)%Q.
Proof.
  revert m. induction l as [|x l IH]; intros m; cbn [foldl].
  - split; [by left|]. split; [apply Qle_refl|]. by intros y ?%elem_of_nil.
  - destruct (IH (if Qle_bool x m then m else x)) as (Hin & Hle & Hall).
    assert (m <= (if Qle_bool x m then m else x) /\
            x <= (if Qle_bool x m then m else x))%Q as [Hm Hx].
    { destruct (Qle_bool x m) eqn:Hmx.
      - split; [apply Qle_refl | by apply Qle_bool_iff].
      - split; [|apply Qle_refl]. apply Qlt_le_weak, Qnot_le_lt.
        intros Hc. apply Qle_bool_iff in Hc. congruence. }
    split; [|split].
    + destruct Hin as [Hin|Hin].
      * rewrite Hin. destruct (Qle_bool x m); [by left|].
        right. by apply elem_of_cons; left.
      * right. by apply elem_of_cons; right.
    + eapply Qle_trans; eauto.
    + intros y [->|Hy]%elem_of_cons; [eapply Qle_trans; eauto | by apply Hall].
Qed.

Lemma py_min_spec (l : list Q) :
  l <> [] ->
  exists lo, py_min l = Shown lo /\ lo ∈ l /\ forall y, y ∈ l -> (lo <= y)%Q.
Proof.
  destruct l as [|x l]; [done|]. intros _. eexists. split; [reflexivity|].
  destruct (foldl_min_spec l x) as (Hin & Hle & Hall). split.
  - destruct Hin as [-> | Hin]; apply elem_of_cons; auto.
  - intros y [->|Hy]%elem_of_cons; auto.
Qed.

Lemma py_max_spec (l : list Q) :
  l <> [] ->
  exists hi, py_max l = Shown hi /\ hi ∈ l /\ forall y, y ∈ l -> (y <= hi)%Q.
Proof.
  destruct l as [|x l]; [done|]. intros _. eexists. split; [reflexivity|].
  destruct (foldl_max_spec l x) as (Hin & Hle & Hall). split.
  - destruct Hin as [-> | Hin]; apply elem_of_cons; auto.
  - intros y [->|Hy]%elem_of_cons; auto.
Qed.

Lemma map_heading_Ok (l : lang) (p : params) :
  exists h, msg_map_heading l p = Ok h.
Proof. destruct l; by eexists. Qed.

Lemma map_cell_shown
    (collection_items : string -> list hydro_feature) (l : lang) (p : params)
    (stations kept : list string) (st : hydro_state) :
  retrieve collection_items l p stations = Ok (kept, st) ->
  exists lats lo hi heading mks,
    map_cell l p (hydrometric_data st) kept =
      Shown {| map_center := (((lo + hi) / 2)%Q, long p);
               map_zoom := 8;
               map_heading := heading;
               map_markers := mks |} /\
    Forall2 (first_latitude_of collection_items) kept lats /\
    lo ∈ lats /\ hi ∈ lats /\
    (forall y, y ∈ lats -> (lo <= y /\ y <= hi)%Q) /\
    Forall2 (marker_of collection_items) kept mks.
Proof.
  intros [Hrun Hne]%retrieve_Ok_loops.
  destruct (view_map_Forall2
              (fun station => df ← getitem (hydrometric_data st) station;
                              column_first obs_LATITUDE df)
              (first_latitude_of collection_items) kept)
    as (lats & Hlats & Hfirst).
  { intros s Hs.
    destruct (kept_frame_shape _ _ _ _ _ Hrun Hs)
      as (el & els & t & x & gap & Hci & _ & _ & _ & Hhead & Hdf).
    unfold getitem. rewrite Hdf. simpl.
    destruct (t ++ [x]) as [|el' rest]; [discriminate|].
    injection Hhead as ->. eexists. split; [reflexivity|]. by exists el, els. }
  destruct (view_map_Forall2
              (fun station =>
                 df ← getitem (hydrometric_data st) station;
                 latest_data ← iloc_last df;
                 Shown {| marker_location := (obs_LATITUDE latest_data.2,
                                              obs_LONGITUDE latest_data.2);
                          marker_data := latest_data |})
              (marker_of collection_items) kept)
    as (mks & Hmks & Hmarkers).
  { intros s Hs.
    destruct (kept_frame_shape _ _ _ _ _ Hrun Hs)
      as (el & els & t & x & gap & _ & Hci & Hx & Hgap & _ & Hdf).
    unfold getitem, iloc_last. rewrite Hdf. simpl.
    rewrite map_app. simpl. rewrite last_snoc. simpl.
    eexists. split; [reflexivity|]. by exists t, x, gap. }
  assert (lats <> []) as Hlne.
  { apply Forall2_length in Hfirst. destruct kept; [done|]. by destruct lats. }
  destruct (py_min_spec lats Hlne) as (lo & Hlo & Hloin & Hlole).
  destruct (py_max_spec lats Hlne) as (hi & Hhi & Hhiin & Hhile).
  destruct (map_heading_Ok l p) as [heading Hheading].
  exists lats, lo, hi, heading, mks.
  unfold map_cell. rewrite Hlats. simpl. rewrite Hlo. simpl. rewrite Hhi. simpl.
  rewrite Hheading. simpl. rewrite Hmks. simpl.
  repeat split; auto.
Qed.

(** X15. Once the retrieval cell has succeeded, the map cell succeeds
    and puts one marker per station left in [stations], in order; the
    marker of a station carries the last record of the station that has
    a water level (every later record has none): its date, its level and
    its names, and it stands at the latitude (second coordinate) and
    longitude (first coordinate) of that record. *)
Theorem map_markers_latest_value
    (collection_items : string -> list hydro_feature) (l : lang) (p : params)
    (stations kept : list string) (st : hydro_state) :
  retrieve collection_items l p stations = Ok (kept, st) ->
  exists m,
    map_cell l p (hydrometric_data st) kept = Shown m /\
    length (map_markers m) = length kept /\
    forall i s, kept !! i = Some s ->
      exists mk j el v,
        map_markers m !! i = Some mk /\
        collection_items s !! j = Some el /\
        prop_LEVEL el = Some v /\
        (forall j' el', j < j' -> collection_items s !! j' = Some el' ->
           prop_LEVEL el' = None) /\
        (marker_data mk).1 = prop_DATE el /\
        obs_LEVEL (marker_data mk).2 = Some v /\
        obs_STATION_NAME (marker_data mk).2 = prop_STATION_NAME el /\
        obs_STATION_NUMBER (marker_data mk).2 = prop_STATION_NUMBER el /\
        marker_location mk = ((coordinates el).2, (coordinates el).1).
Proof.
  intros Hrun.
  destruct (map_cell_shown _ _ _ _ _ _ Hrun)
    as (lats & lo & hi & heading & mks & Hmap & _ & _ & _ & _ & Hmarkers).
  eexists. split; [exact Hmap|]. simpl.
  split; [symmetry; by eapply Forall2_length|].
  intros i s Hi.
  destruct (Forall2_lookup_l _ _ _ _ _ Hmarkers Hi)
    as (mk & Hmk & t & x & gap & Hci & Hx & Hgap & ->).
  unfold feature_missing in Hx.
  destruct (prop_LEVEL x) as [v|] eqn:Hv; [|discriminate].
  eexists _, (length t), x, v. simpl.
  split; [exact Hmk|]. split; [by rewrite Hci, list_lookup_middle|].
  split; [exact Hv|]. split; [|by repeat split].
  intros j' el' Hj Hel'.
  rewrite Hci, lookup_app_r in Hel' by lia.
  destruct (j' - length t) as [|k] eqn:Hk; [lia|]. simpl in Hel'.
  apply list_elem_of_lookup_2, list_elem_of_In in Hel'.
  rewrite forallb_forall in Hgap. apply Hgap in Hel'.
  unfold feature_missing in Hel'. by destruct (prop_LEVEL el').
Qed.

Lemma map_markers_latest_value_witness :
  exists m,
    map_cell EN chilliwack
      (hydrometric_data (loops_state scenario_items ["X"; "Y"; "W"])) ["X"; "W"]
    = Shown m /\
    length (map_markers m) = 2.
Proof.
  assert (retrieve scenario_items EN chilliwack ["X"; "Y"; "W"]
          = Ok (["X"; "W"], loops_state scenario_items ["X"; "Y"; "W"])) as Hrun
    by (rewrite retrieve_eq; reflexivity).
  destruct (map_markers_latest_value scenario_items EN chilliwack _ _ _ Hrun)
    as (m & Hm & Hlen & _).
  exists m. split; [exact Hm | exact Hlen].
Defined.

(** X16. Once the retrieval cell has succeeded, the list of latitudes
    of the map cell can be built (every station left has a frame with a
    first row) and is not empty, so [min] and [max] return; what they
    return are latitudes of first records of stations left, and the
    latitude of the first record of every station left lies between
    them.  The map is centred on the chosen longitude, at zoom 8. *)
Theorem map_latitudes_bounds
    (collection_items : string -> list hydro_feature) (l : lang) (p : params)
    (stations kept : list string) (st : hydro_state) :
  retrieve collection_items l p stations = Ok (kept, st) ->
  exists lats lo hi m,
    view_map (fun station => df ← getitem (hydrometric_data st) station;
                             column_first obs_LATITUDE df) kept = Shown lats /\
    py_min lats = Shown lo /\
    py_max lats = Shown hi /\
    (exists s el els, s ∈ kept /\ collection_items s = el :: els /\
                      lo = (coordinates el).2) /\
    (exists s el els, s ∈ kept /\ collection_items s = el :: els /\
                      hi = (coordinates el).2) /\
    (forall s el els, s ∈ kept -> collection_items s = el :: els ->
       (lo <= (coordinates el).2 /\ (coordinates el).2 <= hi)%Q) /\
    map_cell l p (hydrometric_data st) kept = Shown m /\
    (map_center m).2 = long p /\
    map_zoom m = 8%Z.
Proof.
  intros Hrun.
  destruct (map_cell_shown _ _ _ _ _ _ Hrun)
    as (lats0 & lo0 & hi0 & heading & mks & Hmap & _).
  destruct (retrieve_Ok_loops _ _ _ _ _ _ Hrun) as [Hloops Hne].
  destruct (view_map_Forall2
              (fun station => df ← getitem (hydrometric_data st) station;
                              column_first obs_LATITUDE df)
              (first_latitude_of collection_items) kept)
    as (lats & Hlats & Hfirst).
  { intros s Hs.
    destruct (kept_frame_shape _ _ _ _ _ Hloops Hs)
      as (el & els & t & x & gap & Hci & _ & _ & _ & Hhead & Hdf).
    unfold getitem. rewrite Hdf. simpl.
    destruct (t ++ [x]) as [|el' rest]; [discriminate|].
    injection Hhead as ->. eexists. split; [reflexivity|]. by exists el, els. }
  assert (lats <> []) as Hlne.
  { apply Forall2_length in Hfirst. destruct kept; [done|]. by destruct lats. }
  destruct (py_min_spec lats Hlne) as (lo & Hlo & Hloin & Hlole).
  destruct (py_max_spec lats Hlne) as (hi & Hhi & Hhiin & Hhile).
  assert (forall y, y ∈ lats ->
            exists s el els, s ∈ kept /\ collection_items s = el :: els /\
                             y = (coordinates el).2) as Hfrom.
  { intros y [i Hi]%list_elem_of_lookup_1.
    destruct (Forall2_lookup_r _ _ _ _ _ Hfirst Hi)
      as (s & Hs & el & els & Hci & ->).
    exists s, el, els. split; [by eapply list_elem_of_lookup_2 | done]. }
  eexists lats, lo, hi, _.
  split; [exact Hlats|]. split; [exact Hlo|]. split; [exact Hhi|].
  split; [by apply Hfrom|]. split; [by apply Hfrom|].
  split; [|split; [exact Hmap | split; reflexivity]].
  intros s el els [i Hi]%list_elem_of_lookup_1 Hci.
  destruct (Forall2_lookup_l _ _ _ _ _ Hfirst Hi)
    as (y & Hy & el' & els' & Hci' & ->).
  rewrite Hci in Hci'. injection Hci' as <- <-.
  apply list_elem_of_lookup_2 in Hy. split; [by apply Hlole | by apply Hhile].
Qed.

Lemma map_latitudes_bounds_witness :
  exists lats lo hi,
    view_map (fun station =>
                df ← getitem
                       (hydrometric_data
                          (loops_state scenario_items ["X"; "Y"; "W"])) station;
                column_first obs_LATITUDE df) ["X"; "W"] = Shown lats /\
    py_min lats = Shown lo /\
    py_max lats = Shown hi.
Proof.
  assert (retrieve scenario_items FR chilliwack ["X"; "Y"; "W"]
          = Ok (["X"; "W"], loops_state scenario_items ["X"; "Y"; "W"])) as Hrun
    by (rewrite retrieve_eq; reflexivity).
  destruct (map_latitudes_bounds scenario_items FR chilliwack _ _ _ Hrun)
    as (lats & lo & hi & m & Hlats & Hlo & Hhi & _).
  exists lats, lo, hi. split; [exact Hlats|]. split; [exact Hlo | exact Hhi].
Defined.

(** X17. The map cell needs the retrieval cell to have succeeded: with
    an empty list of stations it fails in [min], and with a station that
    has no frame it fails with a [KeyError] on the first such station. *)
Theorem map_cell_failures (l : lang) (p : params)
    (hd : gmap string (Frame date obs)) :
  map_cell l p hd [] =
    Fails (Uncaught (ValueError "min() arg is an empty sequence")) /\
  forall (before after : list string) (s : string),
    (forall s', s' ∈ before ->
       exists d o df, hd !! s' = Some ((d, o) :: df)) ->
    hd !! s = None ->
    map_cell l p hd (before ++ s :: after) = Fails (KeyError s).
Proof.
  split; [reflexivity|].
  intros before after s Hbefore Hs. unfold map_cell.
  assert (view_map (fun station => df ← getitem hd station;
                                   column_first obs_LATITUDE df)
            (before ++ s :: after) = Fails (KeyError s)) as ->; [|reflexivity].
  induction before as [|s' before IH].
  - assert (getitem hd s = Fails (KeyError s)) as Hget
      by (unfold getitem; by rewrite Hs).
    cbn [app view_map]. by rewrite Hget.
  - destruct (Hbefore s') as (d & o & df & Hs'); [by apply elem_of_cons; left|].
    change ((s' :: before) ++ s :: after) with (s' :: (before ++ s :: after)).
    assert (getitem hd s' = Shown ((d, o) :: df)) as Hget
      by (unfold getitem; by rewrite Hs').
    cbn [view_map]. rewrite Hget.
    rewrite IH; [reflexivity|].
    intros s'' Hin. apply Hbefore, elem_of_cons. by right.
Qed.

Lemma map_cell_failures_witness :
  map_cell EN chilliwack
    (hydrometric_data (loops_state scenario_items ["X"; "Y"])) ["X"; "Y"]
  = Fails (KeyError "Y").
Proof.
  refine (proj2 (map_cell_failures EN chilliwack _) ["X"] [] "Y" _ _).
  - intros s' Hs'. apply list_elem_of_singleton in Hs'. subst s'.
    eexists _, _, _. vm_compute. reflexivity.
  - vm_compute. reflexivity.
Defined.
